(** * Earth911 LLM extractor: the post-processing core of [scraper.py]

    A shallow embedding of the deterministic part of the scraper: the
    response sanitizer [clean_json_string], the schema validator
    [validate_structure], the table extractor [extract_materials_accepted]
    and the orchestrator [classify_with_ollama], followed by the properties
    the specification states about them.

    Conventions.
    - A Python [str] is a [string]; each [ascii] stands for one code point
      below 256.
    - The three library entry points the script calls are not code of the
      script and are taken as Section variables: the language-model chain,
      [json.loads] and the [html.parser] tree builder of BeautifulSoup.
      The BeautifulSoup queries the script runs on the parsed tree
      ([select], [find], [get_text], [decompose]) are modelled on a DOM
      type.
    - A JSON object / Python [dict] with string keys is a [gmap string _]. *)

From stdpp Require Import gmap strings list.
From Stdlib Require Import Ascii String.

Set Warnings "-register-all".

(* ================================================================== *)
(** ** Python string primitives *)
(* ================================================================== *)

Module PyStr.

(** The double-quote character, and a one-character string. *)
Definition dquote : ascii := "034"%char.
Definition newline : ascii := "010"%char.
Definition chr (c : ascii) : string := String c EmptyString.

(** String literals of this development are written with an apostrophe
    wherever the Python text has a double quote; [q] puts the double
    quotes back. *)
Fixpoint q (s : string) : string :=
  match s with
  | EmptyString => EmptyString
  | String c s' => String (if Ascii.eqb c "'" then dquote else c) (q s')
  end.

(** [str.isspace] on one code point below 256; the same predicate backs
    [\s] of the [re] module on [str] patterns. *)
Definition isspace (c : ascii) : bool :=
  let n := nat_of_ascii c in
  ((9 <=? n)%nat && (n <=? 13)%nat) || ((28 <=? n)%nat && (n <=? 32)%nat)
  || (n =? 133)%nat || (n =? 160)%nat.

Fixpoint lstrip (s : string) : string :=
  match s with
  | EmptyString => EmptyString
  | String c s' => if isspace c then lstrip s' else s
  end.

Fixpoint rstrip (s : string) : string :=
  match s with
  | EmptyString => EmptyString
  | String c s' =>
      match rstrip s' with
      | EmptyString => if isspace c then EmptyString else chr c
      | r => String c r
      end
  end.

(** Every character of [s] is whitespace. *)
Fixpoint all_space (s : string) : bool :=
  match s with
  | EmptyString => true
  | String c s' => isspace c && all_space s'
  end.

(** No character of [s] is whitespace. *)
Fixpoint no_space (s : string) : bool :=
  match s with
  | EmptyString => true
  | String c s' => negb (isspace c) && no_space s'
  end.

(** The last character of [s] is whitespace. *)
Fixpoint last_is_space (s : string) : bool :=
  match s with
  | EmptyString => false
  | String c EmptyString => isspace c
  | String _ s' => last_is_space s'
  end.

(** [s.strip()] *)
Definition strip (s : string) : string := lstrip (rstrip s).

(** [s.startswith(p)] *)
Definition startswith (p s : string) : bool := String.prefix p s.

(** [s[n:]] *)
Fixpoint drop (n : nat) (s : string) : string :=
  match n, s with
  | S k, String _ s' => drop k s'
  | _, _ => s
  end.

(** [s[:n]] *)
Fixpoint take (n : nat) (s : string) : string :=
  match n, s with
  | S k, String c s' => String c (take k s')
  | _, _ => EmptyString
  end.

(** [sub in s] *)
Fixpoint contains (sub s : string) : bool :=
  startswith sub s ||
  match s with
  | EmptyString => false
  | String _ s' => contains sub s'
  end.

(** Prepend one character to the piece under construction. *)
Definition push_front (c : ascii) (pieces : list string) : list string :=
  match pieces with
  | p :: ps => String c p :: ps
  | [] => [chr c]
  end.

(** [s.split(sep)] for a non-empty separator: a left-to-right scan
    cutting at each occurrence and resuming after it.  [skip] counts the
    characters of the current occurrence still to be passed over. *)
Fixpoint split_from (sep : string) (skip : nat) (s : string) : list string :=
  match s with
  | EmptyString => [EmptyString]
  | String c s' =>
      match skip with
      | S k => split_from sep k s'
      | O =>
          if startswith sep s
          then EmptyString :: split_from sep (String.length sep - 1) s'
          else push_front c (split_from sep 0 s')
      end
  end.

Definition split (sep s : string) : list string := split_from sep 0 s.

(** The longest prefix of non-[stop] characters and what follows it. *)
Fixpoint span_until (stop : ascii -> bool) (s : string) : string * string :=
  match s with
  | EmptyString => (EmptyString, EmptyString)
  | String c s' =>
      if stop c then (EmptyString, s)
      else let '(a, b) := span_until stop s' in (String c a, b)
  end.

End PyStr.

(* ================================================================== *)
(** ** The regular expressions of [clean_json_string] *)
(* ================================================================== *)

Module PyRe.
Import PyStr.

(** A compiled pattern is given by its matcher: [m s = Some (g, n)] when
    the pattern matches a prefix of [s]; [n] is the length of the match
    (positive for the three patterns below) and [g] what the caller
    emits for it (group 1 for [re.split], the expanded replacement
    template for [re.sub]).  Each of the three patterns has at most one
    way to match at a given position, so the matcher is a function. *)
Definition matcher : Type := string -> option (string * nat).

(** [re.split(p, s)] for a pattern with one capture group: the pieces
    between successive leftmost non-overlapping matches, interleaved
    with group 1 of each match. *)
Fixpoint re_split_from (m : matcher) (skip : nat) (s : string) : list string :=
  match s with
  | EmptyString => [EmptyString]
  | String c s' =>
      match skip with
      | S k => re_split_from m k s'
      | O =>
          match m s with
          | Some (g, n) => EmptyString :: g :: re_split_from m (n - 1) s'
          | None => push_front c (re_split_from m 0 s')
          end
      end
  end.

Definition re_split (m : matcher) (s : string) : list string :=
  re_split_from m 0 s.

(** [re.sub(p, repl, s)]: every leftmost non-overlapping match is
    replaced, the text between matches is copied. *)
Fixpoint re_sub_from (m : matcher) (skip : nat) (s : string) : string :=
  match s with
  | EmptyString => EmptyString
  | String c s' =>
      match skip with
      | S k => re_sub_from m k s'
      | O =>
          match m s with
          | Some (r, n) => r +:+ re_sub_from m (n - 1) s'
          | None => String c (re_sub_from m 0 s')
          end
      end
  end.

Definition re_sub (m : matcher) (s : string) : string := re_sub_from m 0 s.

(** [re.search(p, s) is not None]: the pattern matches somewhere. *)
Fixpoint re_search (m : matcher) (s : string) : bool :=
  match m s, s with
  | Some _, _ => true
  | None, EmptyString => false
  | None, String _ s' => re_search m s'
  end.

(** Consume the literal [p] at the front of [s]. *)
Definition eat (p s : string) : option string :=
  if startswith p s then Some (drop (String.length p) s) else None.

(** [(Note:|Explanation:|Output:)]: the first alternative that matches. *)
Definition markers : list string := ["Note:"; "Explanation:"; "Output:"].

Definition leading_marker (s : string) : option string :=
  List.find (fun mk => startswith mk s) markers.

(** [\n\s*(Note:|Explanation:|Output:)] *)
Definition commentary : matcher := fun s =>
  match s with
  | String c s' =>
      if Ascii.eqb c newline then
        let rest := lstrip s' in
        match leading_marker rest with
        | Some mk =>
            Some (mk, String.length s - String.length rest + String.length mk)
        | None => None
        end
      else None
  | EmptyString => None
  end.

Definition closing (c : ascii) : bool := Ascii.eqb c "}" || Ascii.eqb c "]".

(** [,(\s*[}\]])] with replacement template [\1] *)
Definition trailing_comma : matcher := fun s =>
  match s with
  | String c s' =>
      if Ascii.eqb c "," then
        match lstrip s' with
        | String b rest =>
            if closing b then
              let n := String.length s' - String.length rest in
              Some (take n s', S n)
            else None
        | EmptyString => None
        end
      else None
  | EmptyString => None
  end.

(** [{\s*'name'\s*:\s*'([^']+)'\s*}] with replacement template ['\1'],
    each apostrophe standing for a double quote. *)
Definition name_object : matcher := fun s =>
  s1 ← eat "{" s;
  s2 ← eat (q "'name'") (lstrip s1);
  s3 ← eat ":" (lstrip s2);
  s4 ← eat (chr dquote) (lstrip s3);
  let '(g, s5) := span_until (Ascii.eqb dquote) s4 in
  match g with
  | EmptyString => None
  | _ =>
      s6 ← eat (chr dquote) s5;
      s7 ← eat "}" (lstrip s6);
      Some (chr dquote +:+ g +:+ chr dquote,
            String.length s - String.length s7)
  end.

End PyRe.

(* ================================================================== *)
(** ** [clean_json_string] *)
(* ================================================================== *)

Import PyStr PyRe.

(** Line 108: [re.split(...)[0].strip()]. *)
Definition truncate_commentary (json_str : string) : string :=
  strip (hd EmptyString (re_split commentary json_str)).

(** Lines 112-113: wrap a bare object in a one-element array. *)
Definition wrap_object (json_str : string) : string :=
  if startswith "{" json_str && negb (startswith "[" (strip json_str))
  then "[" +:+ json_str +:+ "]"
  else json_str.

(** Lines 109-115: everything after the truncation. *)
Definition repair (json_str : string) : string :=
  let json_str := re_sub trailing_comma json_str in
  let json_str := re_sub name_object json_str in
  strip (wrap_object json_str).

Definition clean_json_string (json_str : string) : string :=
  repair (truncate_commentary json_str).

(* ================================================================== *)
(** ** The parsed page: BeautifulSoup's tree and the queries used on it *)
(* ================================================================== *)

Module Soup.
Import PyStr.

(** A page element.  [Text] is a [NavigableString] (or [CData]);
    [Comment] stands for the string kinds [get_text] leaves out:
    comments, doctype, declarations, and the strings the tree builder
    files under a class of their own, as it does for the text inside
    [template], [rt] and [rp] elements; [Element] is a [Tag], its name
    lower-cased by the tree builder. *)
Inductive node : Type :=
| Text (s : string)
| Comment (s : string)
| Element (name : string) (attrs : list (string * string))
          (children : list node).

(** The [BeautifulSoup] object: the top-level elements of the page. *)
Definition soup : Type := list node.

Section node_induction.
Variable P : node -> Prop.
Hypothesis P_text : forall s, P (Text s).
Hypothesis P_comment : forall s, P (Comment s).
Hypothesis P_element :
  forall name attrs cs, Forall P cs -> P (Element name attrs cs).

Fixpoint node_tree_ind (n : node) : P n :=
  match n with
  | Text s => P_text s
  | Comment s => P_comment s
  | Element name attrs cs =>
      P_element name attrs cs
        ((fix go (l : list node) : Forall P l :=
            match l with
            | [] => List.Forall_nil P
            | c :: l' => List.Forall_cons P c l' (node_tree_ind c) (go l')
            end) cs)
  end.
End node_induction.

Definition tag_name (n : node) : option string :=
  match n with Element name _ _ => Some name | _ => None end.

Definition children (n : node) : list node :=
  match n with Element _ _ cs => cs | _ => [] end.

(** [tag.descendants]: everything below the tag, in document order. *)
Fixpoint descendants (n : node) : list node :=
  match n with
  | Element _ _ cs => flat_map (fun c => c :: descendants c) cs
  | _ => []
  end.

Definition soup_descendants (s : soup) : list node :=
  flat_map (fun c => c :: descendants c) s.

(** [" ".join(words)] and friends. *)
Fixpoint join (sep : string) (l : list string) : string :=
  match l with
  | [] => EmptyString
  | [x] => x
  | x :: rest => x +:+ sep +:+ join sep rest
  end.

(** The whitespace-separated words of an attribute value: how the tree
    builder stores the multi-valued [class] attribute. *)
Fixpoint words_from (cur : string) (s : string) : list string :=
  match s with
  | EmptyString => match cur with EmptyString => [] | _ => [cur] end
  | String c s' =>
      if isspace c
      then match cur with
           | EmptyString => words_from EmptyString s'
           | _ => cur :: words_from EmptyString s'
           end
      else words_from (cur +:+ chr c) s'
  end.

Definition words (s : string) : list string := words_from EmptyString s.

Definition attr (key : string) (n : node) : option string :=
  match n with
  | Element _ attrs _ => snd <$> List.find (fun kv => String.eqb (fst kv) key) attrs
  | _ => None
  end.

Definition classes (n : node) : list string :=
  match attr "class" n with Some v => words v | None => [] end.

Definition has_name (name : string) (n : node) : bool :=
  match tag_name n with Some t => String.eqb t name | None => false end.

(** CSS [.cls]: one of the element's classes is [cls]. *)
Definition has_class (cls : string) (n : node) : bool :=
  existsb (String.eqb cls) (classes n).

(** The [class_=cls] filter of [find]: some class equals [cls], or the
    whole class list joined by spaces does. *)
Definition class_filter (cls : string) (n : node) : bool :=
  match attr "class" n with
  | Some _ => has_class cls n || String.eqb (join " " (classes n)) cls
  | None => false
  end.

(** [tag.find(name, class_=cls)]: the first matching descendant. *)
Definition find (name cls : string) (n : node) : option node :=
  List.find (fun d => has_name name d && class_filter cls d) (descendants n).

(** The strings [get_text] visits, in document order. *)
Fixpoint strings (n : node) : list string :=
  match n with
  | Text s => [s]
  | Comment _ => []
  | Element _ _ cs => flat_map strings cs
  end.

Definition nonempty (s : string) : bool :=
  match s with EmptyString => false | _ => true end.

(** [get_text(separator=sep, strip=True)] over a list of nodes: every
    string stripped, the empty ones dropped, the rest joined. *)
Definition get_text_of (sep : string) (ns : list node) : string :=
  join sep (List.filter nonempty (strip <$> flat_map strings ns)).

Definition get_text (sep : string) (n : node) : string :=
  get_text_of sep (children n).

(** [soup.select("sel_anc sel")] for two simple selectors joined by the
    descendant combinator: the elements matching [sel] that lie below an
    element matching [sel_anc], in document order.  [inside] tells
    whether an ancestor already matched [sel_anc]. *)
Fixpoint select_below (anc sel : node -> bool) (inside : bool) (n : node)
  : list node :=
  match n with
  | Element _ _ cs =>
      (if inside && sel n then [n] else [])
        ++ flat_map (select_below anc sel (inside || anc n)) cs
  | _ => []
  end.

Definition select (anc sel : node -> bool) (s : soup) : list node :=
  flat_map (select_below anc sel false) s.

(** [tag.decompose()] applied to every tag [soup(names)] finds: the
    tree without those elements. *)
Fixpoint without (drop_it : node -> bool) (n : node) : node :=
  match n with
  | Element name attrs cs =>
      Element name attrs
        (flat_map (fun c => if drop_it c then [] else [without drop_it c]) cs)
  | _ => n
  end.

Definition decompose_all (drop_it : node -> bool) (s : soup) : soup :=
  flat_map (fun c => if drop_it c then [] else [without drop_it c]) s.

End Soup.

(* ================================================================== *)
(** ** [extract_visible_text] and [extract_materials_accepted] *)
(* ================================================================== *)

Import Soup.

(** [table.materials-accepted] and [tr] *)
Definition is_materials_table (n : node) : bool :=
  has_name "table" n && has_class "materials-accepted" n.

Definition is_row (n : node) : bool := has_name "tr" n.

(** [row.find("td", class_="material-name")] *)
Definition material_cell (row : node) : option node :=
  find "td" "material-name" row.

(** What that [find] looks for. *)
Definition is_material_cell (n : node) : bool :=
  has_name "td" n && class_filter "material-name" n.

Section Extractors.

(** [BeautifulSoup(html, "html.parser")] *)
Variable BeautifulSoup : string -> soup.

Definition extract_visible_text (html : string) : string :=
  let soup := BeautifulSoup html in
  let soup :=
    decompose_all (fun n => has_name "script" n || has_name "style" n) soup in
  get_text_of " " soup.

(** One turn of the loop of lines 172-177. *)
Definition add_material (materials : list string) (row : node) : list string :=
  match material_cell row with
  | Some cell =>
      let material_name := get_text EmptyString cell in
      if nonempty material_name then materials ++ [material_name]
      else materials
  | None => materials
  end.

Definition extract_materials_accepted (html : string) : list string :=
  let soup := BeautifulSoup html in
  let rows := select is_materials_table is_row soup in
  fold_left add_material rows [].

End Extractors.

(* ================================================================== *)
(** ** Python values, exceptions and the schema validator *)
(* ================================================================== *)

(** What [json.loads] returns.  A float is kept as its literal. *)
Inductive json : Type :=
| JNull
| JBool (b : bool)
| JInt (z : Z)
| JFloat (literal : string)
| JStr (s : string)
| JArr (items : list json)
| JObj (fields : gmap string json).

(** A raised exception: its class and [str(e)]. *)
Record exn : Type := Exn { exn_class : string; exn_str : string }.

(** [type(v).__name__] *)
Definition class_name (v : json) : string :=
  match v with
  | JNull => "NoneType"
  | JBool _ => "bool"
  | JInt _ => "int"
  | JFloat _ => "float"
  | JStr _ => "str"
  | JArr _ => "list"
  | JObj _ => "dict"
  end.

(** The two classes [validate_structure] tests against. *)
Inductive pytype : Type := str | list_.

Definition type_name (t : pytype) : string :=
  match t with str => "str" | list_ => "list" end.

Definition isinstance (v : json) (t : pytype) : bool :=
  match t, v with
  | str, JStr _ => true
  | list_, JArr _ => true
  | _, _ => false
  end.

(** Lines 144-150; a dict literal iterates in the order written. *)
Definition required_keys : list (string * pytype) :=
  [ ("business_name", str);
    ("last_update_date", str);
    ("street_address", str);
    ("materials_category", list_);
    ("materials_accepted", list_) ].

(** The loop of lines 151-156 over the keys still to be checked. *)
Fixpoint validate_keys (keys : list (string * pytype))
    (entry : gmap string json) : bool * string :=
  match keys with
  | [] => (true, "Valid")
  | (key, expected_type) :: keys' =>
      match entry !! key with
      | None => (false, "Missing key: " +:+ key)
      | Some v =>
          if isinstance v expected_type then validate_keys keys' entry
          else (false, "Wrong type for " +:+ key +:+ ": expected "
                         +:+ type_name expected_type)
      end
  end.

Definition validate_structure (entry : gmap string json) : bool * string :=
  validate_keys required_keys entry.

(* ================================================================== *)
(** ** The orchestrator [classify_with_ollama] and the loop of [main] *)
(* ================================================================== *)

(** The [raw_output] of an error dictionary: the response text, or the
    candidate dictionary. *)
Inductive raw_output : Type :=
| RawText (raw_response : string)
| RawCandidate (parsed : gmap string json).

(** The dictionary [classify_with_ollama] returns, by the [return] that
    produced it: line 212 (the record) or lines 211 and 215 (an error
    dictionary with the keys [error] and [raw_output]). *)
Inductive result : Type :=
| FacilityRecord (parsed : gmap string json)
| ExtractionFailure (error : string) (raw : raw_output).

(** A call either returns or lets an exception escape. *)
Inductive outcome (A : Type) : Type :=
| Returned (v : A)
| Raised (e : exn).
Arguments Returned {A} v.
Arguments Raised {A} e.

(** Statements that may raise, sequenced inside the [try] block. *)
Definition try_bind {A B : Type} (x : exn + A) (k : A -> exn + B) : exn + B :=
  match x with
  | inl e => inl e
  | inr a => k a
  end.

Notation "'let!' x ':=' e 'in' k" :=
  (try_bind e (fun x => k))
    (at level 10, x name, e at level 100, k at level 200, only parsing).

(** Lines 202-203: [parsed[0]] when [parsed] is a list. *)
Definition first_if_list (parsed : json) : exn + json :=
  match parsed with
  | JArr [] => inl (Exn "IndexError" "list index out of range")
  | JArr (first :: _) => inr first
  | _ => inr parsed
  end.

(** Lines 206-207: [parsed[key] = v] with a [str] key.  Only a dict
    takes it; the result is the dict after the assignment. *)
Definition setitem (parsed : json) (key : string) (v : json)
  : exn + gmap string json :=
  match parsed with
  | JObj fields => inr (<[key := v]> fields)
  | JArr _ =>
      inl (Exn "TypeError" "list indices must be integers or slices, not str")
  | _ =>
      inl (Exn "TypeError"
             ("'" +:+ class_name parsed
                  +:+ "' object does not support item assignment"))
  end.

Definition fence_open : string := "```json".
Definition fence : string := "```".

(** Lines 196-197. *)
Definition unfence (raw_response : string) : string :=
  if contains fence_open raw_response
  then strip (hd EmptyString
                (split fence
                   (List.last (split fence_open raw_response) EmptyString)))
  else raw_response.

Definition electronics : json := JArr [JStr "Electronics"].

Section Orchestrator.

(** [chain.invoke({"entry_text": t})["text"]]: the model's answer to
    the prompt rendered with [t], or the exception the call raises. *)
Variable chain_invoke : string -> exn + string.

(** [json.loads] *)
Variable json_loads : string -> exn + json.

(** [BeautifulSoup(html, "html.parser")] *)
Variable BeautifulSoup : string -> soup.

(** The candidate after the two assignments of lines 206-207. *)
Definition overridden (entry_html : string) (candidate : gmap string json)
  : gmap string json :=
  <["materials_accepted" :=
      JArr (JStr <$> extract_materials_accepted BeautifulSoup entry_html)]>
    (<["materials_category" := electronics]> candidate).

(** Lines 199-212, run with [raw_response] bound. *)
Definition parse_and_validate (entry_html raw_response : string)
  : exn + result :=
  let cleaned := clean_json_string raw_response in
  let! parsed := json_loads cleaned in
  let! parsed := first_if_list parsed in
  let! parsed := setitem parsed "materials_category" electronics in
  let! parsed :=
    setitem (JObj parsed) "materials_accepted"
      (JArr (JStr <$> extract_materials_accepted BeautifulSoup entry_html)) in
  let '(valid, message) := validate_structure parsed in
  if negb valid
  then inr (ExtractionFailure ("Validation error: " +:+ message)
              (RawCandidate parsed))
  else inr (FacilityRecord parsed).

(** Line 215.  The handler reads the local [raw_response]; [None] is
    the local not yet bound, and reading it raises from inside the
    handler. *)
Definition handler (e : exn) (raw_response : option string) : outcome result :=
  match raw_response with
  | Some raw_response =>
      Returned (ExtractionFailure ("JSON decode error: " +:+ exn_str e)
                  (RawText raw_response))
  | None =>
      Raised (Exn "UnboundLocalError"
                "cannot access local variable 'raw_response' where it is not associated with a value")
  end.

Definition classify_with_ollama (entry_html : string) : outcome result :=
  match chain_invoke (extract_visible_text BeautifulSoup entry_html) with
  | inl e => handler e None
  | inr raw_response =>
      let raw_response := unfence raw_response in
      match parse_and_validate entry_html raw_response with
      | inl e => handler e (Some raw_response)
      | inr r => Returned r
      end
  end.

(** The loop of lines 230-234 of [main]: one result appended per page;
    an exception escaping [classify_with_ollama] ends the run. *)
Fixpoint process_pages (raw_facilities : list string)
    (structured_entries : list result) : outcome (list result) :=
  match raw_facilities with
  | [] => Returned structured_entries
  | raw_html :: rest =>
      match classify_with_ollama raw_html with
      | Returned structured =>
          process_pages rest (structured_entries ++ [structured])
      | Raised e => Raised e
      end
  end.

End Orchestrator.

(* ================================================================== *)
(** ** Small readers used to run the pipeline on concrete pages *)
(* ================================================================== *)

(** The theorems below hold for every tree builder and every JSON
    parser.  To evaluate them on concrete text, this section provides a
    reader for plain markup (start tags with double-quoted attribute
    values, end tags, text) and one for plain JSON (objects, arrays,
    strings without escapes, integers, [true], [false], [null]). *)

Module HtmlLite.
Import PyStr.

Inductive token : Type :=
| TStart (name : string) (attrs : list (string * string))
| TEnd (name : string)
| TText (s : string).

Inductive attr_mode : Type :=
| Between
| InName (name : string)
| AfterEq (name : string)
| InValue (name value : string).

Fixpoint attributes (mode : attr_mode) (s : string) : list (string * string) :=
  match s with
  | EmptyString =>
      match mode with
      | Between => []
      | InName n | AfterEq n => [(n, EmptyString)]
      | InValue n v => [(n, v)]
      end
  | String c s' =>
      match mode with
      | Between =>
          if isspace c then attributes Between s'
          else attributes (InName (chr c)) s'
      | InName n =>
          if Ascii.eqb c "=" then attributes (AfterEq n) s'
          else if isspace c then (n, EmptyString) :: attributes Between s'
          else attributes (InName (n +:+ chr c)) s'
      | AfterEq n =>
          if Ascii.eqb c dquote then attributes (InValue n EmptyString) s'
          else (n, EmptyString) :: attributes Between s'
      | InValue n v =>
          if Ascii.eqb c dquote then (n, v) :: attributes Between s'
          else attributes (InValue n (v +:+ chr c)) s'
      end
  end.

Definition text_token (cur : string) : list token :=
  match cur with EmptyString => [] | _ => [TText cur] end.

Definition tag_token (body : string) : token :=
  match body with
  | String "/" name => TEnd (strip name)
  | _ => let '(name, rest) := span_until isspace body in
         TStart name (attributes Between rest)
  end.

(** [in_tag] tells whether the scan is between [<] and [>]. *)
Fixpoint lex (in_tag : bool) (cur : string) (s : string) : list token :=
  match s with
  | EmptyString => text_token (if in_tag then "<" +:+ cur else cur)
  | String c s' =>
      if in_tag then
        if Ascii.eqb c ">" then tag_token cur :: lex false EmptyString s'
        else lex true (cur +:+ chr c) s'
      else
        if Ascii.eqb c "<" then text_token cur ++ lex true EmptyString s'
        else lex false (cur +:+ chr c) s'
  end.

(** An element still open: its name, attributes and children so far. *)
Definition frame : Type := string * list (string * string) * list node.

(** The open elements, innermost first, and the finished top level. *)
Definition builder : Type := list frame * list node.

Definition append_child (c : node) (b : builder) : builder :=
  match b with
  | ((n, a, cs) :: outer, top) => ((n, a, cs ++ [c]) :: outer, top)
  | ([], top) => ([], top ++ [c])
  end.

Definition pop (b : builder) : builder :=
  match b with
  | ((n, a, cs) :: outer, top) => append_child (Element n a cs) (outer, top)
  | ([], _) => b
  end.

Fixpoint depth_of (name : string) (open : list frame) : option nat :=
  match open with
  | [] => None
  | (n, _, _) :: outer =>
      if String.eqb n name then Some 1 else S <$> depth_of name outer
  end.

Definition void_elements : list string :=
  ["br"; "hr"; "img"; "input"; "link"; "meta"].

Definition step (b : builder) (t : token) : builder :=
  match t with
  | TText s => append_child (Text s) b
  | TStart name attrs =>
      if existsb (String.eqb name) void_elements
      then append_child (Element name attrs []) b
      else ((name, attrs, []) :: fst b, snd b)
  | TEnd name =>
      match depth_of name (fst b) with
      | Some k => Nat.iter k pop b
      | None => b
      end
  end.

Definition parse (html : string) : soup :=
  let b := fold_left step (lex false EmptyString html) ([], []) in
  snd (Nat.iter (List.length (fst b)) pop b).

End HtmlLite.

Module JsonLite.
Import PyStr PyRe.

Definition is_digit (c : ascii) : bool :=
  let n := nat_of_ascii c in (48 <=? n)%nat && (n <=? 57)%nat.

Definition digit (c : ascii) : option Z :=
  if is_digit c then Some (Z.of_nat (nat_of_ascii c - 48)) else None.

Fixpoint digits (acc : Z) (s : string) : Z * string :=
  match s with
  | String c s' =>
      match digit c with
      | Some d => digits (10 * acc + d) s'
      | None => (acc, s)
      end
  | EmptyString => (acc, s)
  end.

Definition number (s : string) : option (json * string) :=
  match s with
  | String c s' =>
      if Ascii.eqb c "-" then
        match s' with
        | String d _ =>
            if is_digit d then let '(z, r) := digits 0 s' in Some (JInt (- z), r)
            else None
        | EmptyString => None
        end
      else if is_digit c then let '(z, r) := digits 0 s in Some (JInt z, r)
      else None
  | EmptyString => None
  end.

Definition quoted (s : string) : option (string * string) :=
  s1 ← eat (chr dquote) s;
  let '(g, s2) := span_until (Ascii.eqb dquote) s1 in
  s3 ← eat (chr dquote) s2;
  Some (g, s3).

Definition literal (s : string) : option (json * string) :=
  match eat "true" s, eat "false" s, eat "null" s with
  | Some r, _, _ => Some (JBool true, r)
  | _, Some r, _ => Some (JBool false, r)
  | _, _, Some r => Some (JNull, r)
  | _, _, _ => number s
  end.

(** Later duplicates of a key win, as in [json.loads]. *)
Definition to_dict (members : list (string * json)) : gmap string json :=
  fold_left (fun d kv => <[fst kv := snd kv]> d) members ∅.

Fixpoint value (fuel : nat) (s : string) : option (json * string) :=
  match fuel with
  | O => None
  | S f =>
      match lstrip s with
      | String c rest =>
          if Ascii.eqb c "[" then
            match eat "]" (lstrip rest) with
            | Some r => Some (JArr [], r)
            | None => '(xs, r) ← items f rest; Some (JArr xs, r)
            end
          else if Ascii.eqb c "{" then
            match eat "}" (lstrip rest) with
            | Some r => Some (JObj ∅, r)
            | None => '(ms, r) ← members f rest; Some (JObj (to_dict ms), r)
            end
          else if Ascii.eqb c dquote then
            '(g, r) ← quoted (lstrip s); Some (JStr g, r)
          else literal (lstrip s)
      | EmptyString => None
      end
  end
with items (fuel : nat) (s : string) : option (list json * string) :=
  match fuel with
  | O => None
  | S f =>
      '(v, r) ← value f s;
      match lstrip r with
      | String c r' =>
          if Ascii.eqb c "," then '(vs, r'') ← items f r'; Some (v :: vs, r'')
          else if Ascii.eqb c "]" then Some ([v], r')
          else None
      | EmptyString => None
      end
  end
with members (fuel : nat) (s : string)
  : option (list (string * json) * string) :=
  match fuel with
  | O => None
  | S f =>
      '(k, r) ← quoted (lstrip s);
      r ← eat ":" (lstrip r);
      '(v, r) ← value f r;
      match lstrip r with
      | String c r' =>
          if Ascii.eqb c "," then
            '(ms, r'') ← members f r'; Some ((k, v) :: ms, r'')
          else if Ascii.eqb c "}" then Some ([(k, v)], r')
          else None
      | EmptyString => None
      end
  end.

Definition loads (s : string) : exn + json :=
  match value (S (String.length s)) s with
  | Some (v, r) =>
      match lstrip r with
      | EmptyString => inr v
      | _ => inl (Exn "JSONDecodeError" "Extra data")
      end
  | None => inl (Exn "JSONDecodeError" "Expecting value")
  end.

End JsonLite.

(* ================================================================== *)
(** ** Statements of the specification, as definitions *)
(* ================================================================== *)

(** [before] ends with a newline and optional whitespace: what follows
    it starts a line of its own, possibly indented, other than the
    first. *)
Definition after_newline (before : string) : Prop :=
  exists b ws, all_space ws = true /\ before = b +:+ chr newline +:+ ws.

(** What follows [before] starts a line, the first line included. *)
Definition begins_line (before : string) : Prop :=
  all_space before = true \/ after_newline before.

(** No marker inside [text] starts a line other than the first. *)
Definition no_marker_after_newline (text : string) : Prop :=
  forall b1 mk b2, In mk markers ->
    text = b1 +:+ mk +:+ b2 -> ~ after_newline b1.

(** The sanitizer cuts the text at the first marker that begins a line,
    the first line included, and repairs what precedes it. *)
Definition cuts_at_first_marker_line : Prop :=
  forall before mk after : string,
    In mk markers ->
    begins_line before ->
    (forall b1 mk' b2, In mk' markers ->
       before = b1 +:+ mk' +:+ b2 -> ~ begins_line b1) ->
    clean_json_string (before +:+ mk +:+ after) = repair (strip before).

(** A required key is present in [entry] with a value of its type. *)
Definition well_typed_at (entry : gmap string json) (kt : string * pytype) : Prop :=
  exists v, entry !! kt.1 = Some v /\ isinstance v kt.2 = true.

(** The first required key, in declaration order, that [entry] lacks. *)
Definition first_missing (entry : gmap string json) : option string :=
  List.find (fun key => bool_decide (entry !! key = None)) (required_keys.*1).

(** Any absent key is reported, the first one by declaration order. *)
Definition reports_first_missing_key : Prop :=
  forall (entry : gmap string json) (key : string),
    first_missing entry = Some key ->
    validate_structure entry = (false, "Missing key: " +:+ key).

(** A string under [materials_accepted] is always what gets reported. *)
Definition reports_string_materials : Prop :=
  forall (entry : gmap string json) (s : string),
    entry !! "materials_accepted" = Some (JStr s) ->
    validate_structure entry
    = (false, "Wrong type for materials_accepted: expected list").

(** [s] starts with a whitespace character. *)
Definition first_is_space (s : string) : bool :=
  match s with
  | String c _ => isspace c
  | EmptyString => false
  end.

(** [w] is one of the words of [v]: a non-empty run of characters that
    are not whitespace, with whitespace or an end of [v] on each side. *)
Definition word_of (w v : string) : Prop :=
  w <> EmptyString /\ no_space w = true
  /\ exists pre post,
       v = pre +:+ w +:+ post
       /\ (pre = EmptyString \/ last_is_space pre = true)
       /\ (post = EmptyString \/ first_is_space post = true).

(** [v] is the value of the attribute [key]: of the first pair under
    that key. *)
Definition attribute_value (key : string) (attrs : list (string * string))
    (v : string) : Prop :=
  exists pre post,
    attrs = pre ++ (key, v) :: post /\ Forall (fun kv => kv.1 <> key) pre.

(** An element called [name] one of whose classes is [cls]. *)
Definition element_of_class (name cls : string) (n : node) : Prop :=
  exists attrs cs v,
    n = Element name attrs cs
    /\ attribute_value "class" attrs v /\ word_of cls v.

(** The materials-accepted table, a table row and a material-name cell,
    in the words of the specification. *)
Definition materials_table (n : node) : Prop :=
  element_of_class "table" "materials-accepted" n.

Definition table_row (n : node) : Prop :=
  exists attrs cs, n = Element "tr" attrs cs.

Definition material_name_cell (n : node) : Prop :=
  element_of_class "td" "material-name" n.

(** The text of a cell: the text strings below it, each one stripped,
    written one after the other. *)
Fixpoint cell_text (n : node) : string :=
  match n with
  | Text s => strip s
  | Comment _ => EmptyString
  | Element _ _ cs =>
      fold_right (fun c rest => cell_text c +:+ rest) EmptyString cs
  end.

(** [cell] is the first material-name cell below [row], in document
    order. *)
Definition first_material_cell (row cell : node) : Prop :=
  exists before after,
    descendants row = before ++ cell :: after
    /\ material_name_cell cell
    /\ Forall (fun d => ~ material_name_cell d) before.

(** No material-name cell lies below [row]. *)
Definition lacks_material_cell (row : node) : Prop :=
  Forall (fun d => ~ material_name_cell d) (descendants row).

(** The names the rows give, row by row: a row without a material-name
    cell gives nothing, a row whose first such cell has an empty text
    gives nothing, and any other row gives the text of its first
    material-name cell. *)
Inductive names_of_rows : list node -> list string -> Prop :=
| names_done : names_of_rows [] []
| names_no_cell (row : node) (rows : list node) (names : list string) :
    lacks_material_cell row ->
    names_of_rows rows names ->
    names_of_rows (row :: rows) names
| names_empty_cell (row cell : node) (rows : list node) (names : list string) :
    first_material_cell row cell ->
    cell_text cell = EmptyString ->
    names_of_rows rows names ->
    names_of_rows (row :: rows) names
| names_cell (row cell : node) (rows : list node) (names : list string) :
    first_material_cell row cell ->
    cell_text cell <> EmptyString ->
    names_of_rows rows names ->
    names_of_rows (row :: rows) (cell_text cell :: names).

(** The page has no materials-accepted table anywhere. *)
Definition no_materials_table (s : soup) : Prop :=
  Forall (fun n => ~ materials_table n) (soup_descendants s).

(** The selector [table.materials-accepted] matches nothing on the
    page. *)
Definition table_absent (s : soup) : Prop :=
  Forall (fun n => is_materials_table n = false) (soup_descendants s).

(** The page of the table example and the tree it parses to. *)
Definition glass_page : string :=
  q "<table class='materials-accepted'><tr><td class='material-name'>Glass</td></tr><tr><td>NoClass</td></tr></table>".

Definition glass_tree : soup :=
  [ Element "table" [("class", "materials-accepted")]
      [ Element "tr" []
          [ Element "td" [("class", "material-name")] [Text "Glass"] ];
        Element "tr" [] [ Element "td" [] [Text "NoClass"] ] ] ].

(** The extractor as the specification words it: the text of every
    material-name cell of every row of the materials-accepted table is
    returned, unless it is empty. *)
Definition lists_every_material_cell : Prop :=
  forall (BeautifulSoup : string -> soup) (html : string)
         (table row cell : node),
    table ∈ soup_descendants (BeautifulSoup html) -> materials_table table ->
    row ∈ descendants table -> table_row row ->
    cell ∈ descendants row -> material_name_cell cell ->
    cell_text cell <> EmptyString ->
    cell_text cell ∈ extract_materials_accepted BeautifulSoup html.

(** A row with two material-name cells. *)
Definition two_cell_page : string :=
  q "<table class='materials-accepted'><tr><td class='material-name'>A</td><td class='material-name'>B</td></tr></table>".

Definition two_cell_tree : soup :=
  [ Element "table" [("class", "materials-accepted")]
      [ Element "tr" []
          [ Element "td" [("class", "material-name")] [Text "A"];
            Element "td" [("class", "material-name")] [Text "B"] ] ] ].

(** A materials table with a plain row, a row without a material-name
    cell, a row whose cell is blank, a row whose cell holds markup and a
    row with two material-name cells. *)
Definition materials_page : string :=
  q "<html><body><table class='list materials-accepted'><tr><td class='material-name'> Batteries </td></tr><tr><td>NoClass</td></tr><tr><td class='material-name'> </td></tr><tr><td class='material-name'>Cell <b>Phones</b></td></tr><tr><td class='name material-name'>A</td><td class='material-name'>B</td></tr></table></body></html>".

(** The end-to-end scenario: a page listing Batteries and a fenced
    model answer proposing other materials. *)
Definition acme_page : string :=
  q "<html><body><h1>Acme Recycling</h1><table class='materials-accepted'><tr><td class='material-name'>Batteries</td></tr></table></body></html>".

Definition acme_answer : string :=
  q "```json
[{'business_name':'Acme Recycling','last_update_date':'2024-01-01','street_address':'1 Main St','materials_category':['X'],'materials_accepted':['Y']}]
```".

(** A model that answers every prompt with the same text, and one whose
    call fails. *)
Definition answers (text : string) : string -> exn + string :=
  fun _ => inr text.

Definition fails (e : exn) : string -> exn + string :=
  fun _ => inl e.

(** The record the scenario ends in. *)
Definition acme_record : gmap string json :=
  <["business_name" := JStr "Acme Recycling"]>
    (<["last_update_date" := JStr "2024-01-01"]>
       (<["street_address" := JStr "1 Main St"]>
          (<["materials_category" := electronics]>
             {["materials_accepted" := JArr [JStr "Batteries"]]}))).

Definition connection_refused : exn :=
  Exn "ConnectionError" "connection refused".

Definition error_prefixed (p : string) (r : result) : bool :=
  match r with
  | ExtractionFailure error _ => startswith p error
  | FacilityRecord _ => false
  end.

(* ================================================================== *)
(** ** Definitions used by the further properties *)
(* ================================================================== *)

(** The model used to run a batch: it fails on one visible text and
    answers every other prompt with [text]. *)
Definition fails_on (visible : string) (e : exn) (text : string)
  : string -> exn + string :=
  fun t => if String.eqb t visible then inl e else inr text.

(** What escapes [classify_with_ollama] when the handler reads the
    unbound local. *)
Definition unbound_raw_response : exn :=
  Exn "UnboundLocalError"
    "cannot access local variable 'raw_response' where it is not associated with a value".

(** A page with no materials table. *)
Definition plain_page : string := "<html><body><p>Closed</p></body></html>".

(** [s] is empty or starts with a character that is not whitespace. *)
Definition starts_nonspace (s : string) : bool :=
  match s with
  | EmptyString => true
  | String c _ => negb (isspace c)
  end.

(** The characters of [s] other than commas, in order. *)
Fixpoint without_commas (s : string) : string :=
  match s with
  | EmptyString => EmptyString
  | String c s' =>
      if Ascii.eqb c "," then without_commas s' else String c (without_commas s')
  end.

(** A payload neither of the two repairs applies to. *)
Definition clean_payload : string := q "[{'business_name': 'Acme'}]".

(** [x] opens, after optional whitespace, with a closing brace or
    bracket. *)
Definition closes_first (x : string) : Prop :=
  exists ws b rest,
    all_space ws = true /\ closing b = true /\ x = ws +:+ String b rest.


(** [script] and [style]: the tags [extract_visible_text] removes. *)
Definition is_script_or_style (n : node) : bool :=
  has_name "script" n || has_name "style" n.

(** The text strings of a tree, those [get_text] visits, that lie
    outside the elements [hidden] picks, in document order. *)
Fixpoint strings_outside (hidden : node -> bool) (n : node) : list string :=
  match n with
  | Text s => [s]
  | Comment _ => []
  | Element _ _ cs =>
      flat_map (fun c => if hidden c then [] else strings_outside hidden c) cs
  end.

(* ================================================================== *)
(** ** Lemmas on the string primitives *)
(* ================================================================== *)

Lemma append_cons (c : ascii) (s t : string) :
  String c s +:+ t = String c (s +:+ t).
Proof. reflexivity. Qed.

Lemma append_nil (t : string) : EmptyString +:+ t = t.
Proof. reflexivity. Qed.

Lemma append_nil_r (s : string) : s +:+ EmptyString = s.
Proof. induction s as [|c s IH]; [done|]. by rewrite append_cons, IH. Qed.

Lemma startswith_append (p s : string) : startswith p (p +:+ s) = true.
Proof.
  unfold startswith. induction p as [|c p IH]; simpl.
  - by destruct s.
  - destruct (ascii_dec c c); [exact IH | done].
Qed.

Lemma lstrip_all_space (ws rest : string) :
  all_space ws = true -> lstrip (ws +:+ rest) = lstrip rest.
Proof.
  induction ws as [|c ws IH]; simpl; [done|].
  intros [Hc Hws]%andb_true_iff. rewrite Hc. by apply IH.
Qed.

Lemma hd_push_front (c : ascii) (l : list string) :
  hd EmptyString (push_front c l) = String c (hd EmptyString l).
Proof. by destruct l. Qed.

Lemma drop_zero (s : string) : drop 0 s = s.
Proof. by destruct s. Qed.

(** Without a match anywhere, [re.split] returns the text whole. *)
Lemma re_split_no_match (m : matcher) (s : string) :
  (forall i, m (drop i s) = None) -> re_split m s = [s].
Proof.
  unfold re_split. induction s as [|c s IH]; intros Hno; simpl; [done|].
  specialize (Hno 0) as H0. rewrite drop_zero in H0. rewrite H0.
  rewrite IH; [done|]. intros i. apply (Hno (S i)).
Qed.

Lemma lstrip_nonspace (c : ascii) (s : string) :
  isspace c = false -> lstrip (String c s) = String c s.
Proof. simpl. by intros ->. Qed.

Lemma lstrip_marker (mk after : string) :
  In mk markers -> lstrip (mk +:+ after) = mk +:+ after.
Proof.
  simpl. intros [<-|[<-|[<-|[]]]]; rewrite append_cons;
    by apply lstrip_nonspace.
Qed.

Lemma leading_marker_found (mk after : string) :
  In mk markers -> is_Some (leading_marker (mk +:+ after)).
Proof.
  unfold leading_marker, markers. simpl.
  intros [<-|[<-|[<-|[]]]];
    repeat (rewrite startswith_append || case_match); eauto.
Qed.

(** After a newline and whitespace, each marker is matched. *)
Lemma commentary_at_marker (ws mk after : string) :
  In mk markers -> all_space ws = true ->
  is_Some (commentary (String newline (ws +:+ mk +:+ after))).
Proof.
  intros Hmk Hws. unfold commentary.
  replace (Ascii.eqb newline newline) with true by reflexivity.
  rewrite lstrip_all_space, lstrip_marker by done.
  destruct (leading_marker_found mk after Hmk) as [g ->]. by eexists.
Qed.

Lemma append_assoc (a b c : string) : (a +:+ b) +:+ c = a +:+ (b +:+ c).
Proof.
  induction a as [|x a IH]; [done|].
  rewrite !append_cons. by rewrite IH.
Qed.

Lemma take_drop (i : nat) (s : string) : take i s +:+ drop i s = s.
Proof.
  revert s. induction i as [|i IH]; intros [|c s]; try done.
  simpl. rewrite append_cons. by rewrite IH.
Qed.

(** A string is its leading whitespace followed by its [lstrip]. *)
Lemma lstrip_split (x : string) :
  exists ws, all_space ws = true /\ x = ws +:+ lstrip x.
Proof.
  induction x as [|c x (ws & Hws & IH)]; [by exists EmptyString|].
  simpl. destruct (isspace c) eqn:Hc.
  - exists (String c ws). simpl. rewrite Hc, Hws, append_cons.
    split; [done | by f_equal].
  - by exists EmptyString.
Qed.

(** [lstrip] leaves nothing of whitespace, and otherwise starts with a
    character that is not whitespace. *)
Lemma lstrip_cases (x : string) :
  (all_space x = true /\ lstrip x = EmptyString)
  \/ (exists d r, isspace d = false /\ lstrip x = String d r).
Proof.
  induction x as [|c x IH]; simpl; [by left|].
  destruct (isspace c) eqn:Hc; simpl; [done|].
  right. by exists c, x.
Qed.

Lemma lstrip_append (x y : string) (d : ascii) (r : string) :
  lstrip x = String d r -> lstrip (x +:+ y) = String d r +:+ y.
Proof.
  induction x as [|c x IH]; simpl; [done|].
  rewrite append_cons. simpl. destruct (isspace c); [done|].
  by intros [= -> ->].
Qed.

Lemma rstrip_all_space (ws : string) :
  all_space ws = true -> rstrip ws = EmptyString.
Proof.
  induction ws as [|c ws IH]; simpl; [done|].
  intros [Hc Hws]%andb_true_iff. by rewrite IH, Hc.
Qed.

Lemma startswith_split (p x : string) :
  startswith p x = true -> exists t, x = p +:+ t.
Proof.
  unfold startswith. revert x.
  induction p as [|c p IH]; intros x; simpl; [by exists x|].
  destruct x as [|d x]; simpl; [done|].
  destruct (ascii_dec c d) as [->|]; [|done].
  intros (t & ->)%IH. by exists t.
Qed.

(** A prefix of [x +:+ y] lies within [x] or reaches past it. *)
Lemma startswith_append_cases (p x y : string) :
  startswith p (x +:+ y) = true ->
  (exists b2, x = p +:+ b2) \/ (exists t, p = x +:+ t).
Proof.
  unfold startswith. revert x.
  induction p as [|c p IH]; intros x; simpl; [left; by exists x|].
  destruct x as [|d x]; [right; by eexists|].
  rewrite append_cons. simpl.
  destruct (ascii_dec c d) as [->|]; [|done].
  intros [(b2 & ->)|(t & ->)]%IH; [left | right]; by eexists.
Qed.

Lemma no_space_append (x t : string) :
  no_space (x +:+ t) = true -> no_space x = true.
Proof.
  induction x as [|c x IH]; [done|]. rewrite append_cons. simpl.
  intros [-> Hx]%andb_true_iff. by apply IH.
Qed.

Lemma last_is_space_no_space (x : string) :
  no_space x = true -> last_is_space x = false.
Proof.
  induction x as [|c x IH]; simpl; [done|].
  intros [Hc Hx]%andb_true_iff. destruct x; [|by apply IH].
  by destruct (isspace c).
Qed.

Lemma last_is_space_append (y : string) (d : ascii) (r : string) :
  last_is_space (y +:+ String d r) = last_is_space (String d r).
Proof.
  induction y as [|c y IH]; [done|]. rewrite append_cons.
  change (last_is_space (String c (y +:+ String d r)))
    with (match y +:+ String d r with
          | EmptyString => isspace c
          | _ => last_is_space (y +:+ String d r)
          end).
  rewrite <- IH. by destruct y.
Qed.

Lemma last_is_space_all_space (c : ascii) (ws : string) :
  isspace c = true -> all_space ws = true ->
  last_is_space (String c ws) = true.
Proof.
  revert c. induction ws as [|d ws IH]; intros c Hc; simpl; [done|].
  intros [Hd Hws]%andb_true_iff. by apply IH.
Qed.

Lemma markers_no_space (mk : string) : In mk markers -> no_space mk = true.
Proof. simpl. by intros [<-|[<-|[<-|[]]]]. Qed.

Lemma leading_marker_split (x mk : string) :
  leading_marker x = Some mk -> In mk markers /\ exists t, x = mk +:+ t.
Proof.
  unfold leading_marker. intros [Hin Hpre]%find_some.
  split; [done | by apply startswith_split].
Qed.

(** A match of the commentary pattern, taken apart. *)
Lemma commentary_split (x g : string) (n : nat) :
  commentary x = Some (g, n) ->
  exists ws t, all_space ws = true /\ In g markers
               /\ x = chr newline +:+ ws +:+ g +:+ t.
Proof.
  unfold commentary. destruct x as [|c x]; [done|].
  destruct (Ascii.eqb c newline) eqn:Hc; [|done].
  apply Ascii.eqb_eq in Hc as ->.
  destruct (leading_marker (lstrip x)) as [mk|] eqn:Hmk; [|done].
  intros [= <- _].
  apply leading_marker_split in Hmk as (Hin & t & Ht).
  destruct (lstrip_split x) as (ws & Hws & Hx).
  exists ws, t. split_and!; [done..|].
  rewrite Hx, Ht. reflexivity.
Qed.

Lemma after_newline_last (before : string) :
  after_newline before -> last_is_space before = true.
Proof.
  intros (b & ws & Hws & ->).
  change (chr newline +:+ ws) with (String newline ws).
  rewrite last_is_space_append. by apply last_is_space_all_space.
Qed.

Lemma after_newline_cons (c : ascii) (b1 : string) :
  after_newline b1 -> after_newline (String c b1).
Proof. intros (b & ws & Hws & ->). by exists (String c b), ws. Qed.

Lemma no_marker_after_newline_tail (c : ascii) (text : string) :
  no_marker_after_newline (String c text) -> no_marker_after_newline text.
Proof.
  intros Hno b1 mk b2 Hmk -> Hb1.
  apply (Hno (String c b1) mk b2 Hmk); [done | by apply after_newline_cons].
Qed.

(** Where no marker starts a line after the first, the pattern matches
    nowhere. *)
Lemma no_marker_no_match (s : string) (i : nat) :
  no_marker_after_newline s -> commentary (drop i s) = None.
Proof.
  intros Hno.
  destruct (commentary (drop i s)) as [[g n]|] eqn:Hm; [|done].
  apply commentary_split in Hm as (ws & t & Hws & Hg & Hdrop).
  exfalso. apply (Hno (take i s +:+ chr newline +:+ ws) g t Hg).
  - rewrite <- (take_drop i s) at 1. rewrite Hdrop.
    by rewrite !append_assoc.
  - by exists (take i s), ws.
Qed.

Lemma re_search_cons (m : matcher) (c : ascii) (s : string) :
  re_search m (String c s)
  = match m (String c s) with Some _ => true | None => re_search m s end.
Proof. reflexivity. Qed.

(** Conversely, a scan that finds no match shows there is no such
    marker. *)
Lemma no_match_no_marker (s : string) :
  re_search commentary s = false -> no_marker_after_newline s.
Proof.
  intros Hscan b1 mk b2 Hmk -> (b & ws & Hws & ->).
  revert Hscan. rewrite !append_assoc.
  induction b as [|c b IH].
  - change (EmptyString +:+ chr newline +:+ ws +:+ mk +:+ b2)
      with (String newline (ws +:+ mk +:+ b2)).
    destruct (commentary_at_marker ws mk b2 Hmk Hws) as [gn Hm].
    by rewrite re_search_cons, Hm.
  - rewrite append_cons, re_search_cons.
    destruct (commentary _); [done | exact IH].
Qed.

(* ================================================================== *)
(** ** The response sanitizer *)
(* ================================================================== *)

(** C6.  [clean_json_string] turns [{"business_name": "X",}] into
    [[{"business_name": "X"}]] (the trailing comma removed, the bare
    object wrapped in a one-element array) and turns [{"name": "Copper"}]
    into ["Copper"] (the single-field shorthand collapsed to a bare
    string, which is not wrapped afterwards). *)
Theorem clean_json_string_examples :
  clean_json_string (q "{'business_name': 'X',}") = q "[{'business_name': 'X'}]"
  /\ clean_json_string (q "{'name': 'Copper'}") = q "'Copper'".
Proof. split; vm_compute; reflexivity. Qed.

Lemma hd_re_split_cons (m : matcher) (c : ascii) (s : string) :
  hd EmptyString (re_split m (String c s))
  = match m (String c s) with
    | Some _ => EmptyString
    | None => String c (hd EmptyString (re_split m s))
    end.
Proof.
  unfold re_split. simpl. destruct (m (String c s)) as [[g n]|]; [done|].
  apply hd_push_front.
Qed.

Lemma rstrip_cons_congr (c : ascii) (x y : string) :
  rstrip x = rstrip y -> rstrip (String c x) = rstrip (String c y).
Proof. simpl. by intros ->. Qed.

Lemma commentary_inv (c : ascii) (x g : string) (n : nat) :
  commentary (String c x) = Some (g, n) ->
  c = newline /\ In g markers /\ startswith g (lstrip x) = true.
Proof.
  unfold commentary.
  destruct (Ascii.eqb c newline) eqn:Hc; [|done].
  apply Ascii.eqb_eq in Hc as ->.
  destruct (leading_marker (lstrip x)) as [mk|] eqn:Hmk; [|done].
  intros [= <- _]. by apply find_some in Hmk as [Hin Hpre].
Qed.

(** A match that starts on the first character of [before], with the
    marked line the first one after [before]: [before] is whitespace. *)
Lemma match_at_start_all_space (before rest g : string) (n : nat) :
  after_newline (String newline before) ->
  no_marker_after_newline (String newline before) ->
  commentary (String newline (before +:+ rest)) = Some (g, n) ->
  all_space before = true.
Proof.
  intros Hnl Hno (_ & Hg & Hpre)%commentary_inv.
  destruct (lstrip_cases before) as [[Hws _]|(d & r & Hd & Hstrip)]; [done|].
  exfalso.
  destruct (lstrip_split before) as (ws & Hws & Hbefore).
  rewrite Hstrip in Hbefore.
  rewrite (lstrip_append _ _ _ _ Hstrip) in Hpre.
  apply startswith_append_cases in Hpre as [(b2 & Hin)|(t & Hout)].
  - (* the marker lies within [before], after a newline *)
    apply (Hno (String newline ws) g b2 Hg).
    + by rewrite Hbefore, Hin.
    + by exists EmptyString, ws.
  - (* the marker runs past the end of [before], which ends in whitespace *)
    apply after_newline_last in Hnl.
    rewrite Hbefore in Hnl.
    change (String newline (ws +:+ String d r))
      with (String newline ws +:+ String d r) in Hnl.
    rewrite last_is_space_append in Hnl.
    apply markers_no_space in Hg. rewrite Hout in Hg.
    apply no_space_append, last_is_space_no_space in Hg. congruence.
Qed.

(** Up to trailing whitespace, the first piece of the split is the text
    before the first marker that starts a line other than the first. *)
Lemma rstrip_truncated (before mk after : string) :
  In mk markers ->
  after_newline before ->
  no_marker_after_newline before ->
  rstrip (hd EmptyString (re_split commentary (before +:+ mk +:+ after)))
  = rstrip before.
Proof.
  intros Hmk. induction before as [|c before IH]; intros Hnl Hno.
  - destruct Hnl as (b & ws & _ & Hb). by destruct b.
  - rewrite append_cons, hd_re_split_cons.
    destruct (commentary (String c (before +:+ mk +:+ after)))
      as [[g n]|] eqn:Hm.
    + pose proof Hm as (-> & _)%commentary_inv.
      pose proof (match_at_start_all_space _ _ _ _ Hnl Hno Hm) as Hws.
      rewrite (rstrip_all_space (String newline before)); [done|].
      simpl. by rewrite Hws.
    + apply rstrip_cons_congr, IH.
      * destruct Hnl as (b & ws & Hws & Hb).
        destruct b as [|c' b]; unfold chr in Hb;
          rewrite ?append_cons, ?append_nil in Hb.
        -- injection Hb as -> ->.
           destruct (commentary_at_marker ws mk after Hmk Hws) as [gn Hgn].
           congruence.
        -- injection Hb as _ ->. by exists b, ws.
      * by apply (no_marker_after_newline_tail c).
Qed.

(** C5, refuted as stated.  A text whose very first line begins with a
    marker is returned whole: the pattern asks for a newline before the
    marker, so nothing is cut, while the statement would have the result
    built from the empty text that precedes the marker. *)
Lemma first_line_marker_is_kept :
  clean_json_string "Note: partial list" = "Note: partial list"
  /\ ~ cuts_at_first_marker_line.
Proof.
  split; [vm_compute; reflexivity|].
  intros Hcut.
  specialize (Hcut EmptyString "Note:" " partial list").
  assert (Hfalse : clean_json_string (EmptyString +:+ "Note:" +:+ " partial list")
                   = repair (strip EmptyString)).
  { apply Hcut.
    - simpl. auto.
    - by left.
    - intros b1 mk' b2 Hmk' Heq _.
      simpl in Hmk'. destruct b1; [|discriminate].
      destruct Hmk' as [<-|[<-|[<-|[]]]]; discriminate. }
  vm_compute in Hfalse. discriminate.
Qed.

(** C5, as amended.  Where one of the markers follows a newline and
    optional whitespace, [clean_json_string] keeps only what precedes
    the first such marker, stripped, and runs the other three steps
    (trailing commas, single-field objects, array wrapping) on that; a
    text in which no marker follows a newline, in particular one whose
    only marker opens the first line, is not cut at all. *)
Theorem clean_json_string_truncation (s : string) :
  (forall before mk after : string,
     s = before +:+ mk +:+ after ->
     In mk markers ->
     after_newline before ->
     no_marker_after_newline before ->
     clean_json_string s = repair (strip before))
  /\ (no_marker_after_newline s ->
      clean_json_string s = repair (strip s)).
Proof.
  split.
  - intros before mk after -> Hmk Hnl Hno.
    unfold clean_json_string, truncate_commentary, strip.
    by rewrite rstrip_truncated.
  - intros Hno. unfold clean_json_string, truncate_commentary.
    rewrite re_split_no_match; [done|].
    intros i. by apply no_marker_no_match.
Qed.

Lemma clean_json_string_truncation_witness :
  clean_json_string ("[1,]" +:+ chr newline +:+ "  Note: done") = "[1]"
  /\ clean_json_string "Note: done" = "Note: done".
Proof.
  split.
  - rewrite (proj1 (clean_json_string_truncation _)
               ("[1,]" +:+ chr newline +:+ "  ") "Note:" " done").
    + vm_compute. reflexivity.
    + reflexivity.
    + simpl. auto.
    + exists "[1,]", "  ". split; reflexivity.
    + apply no_match_no_marker. reflexivity.
  - rewrite (proj2 (clean_json_string_truncation _)).
    + vm_compute. reflexivity.
    + apply no_match_no_marker. reflexivity.
Defined.

(* ================================================================== *)
(** ** The schema validator *)
(* ================================================================== *)

Lemma validate_keys_valid (keys : list (string * pytype))
    (entry : gmap string json) :
  validate_keys keys entry = (true, "Valid")
  <-> Forall (well_typed_at entry) keys.
Proof.
  induction keys as [|[key t] keys IH]; simpl.
  - split; [constructor | done].
  - rewrite Forall_cons. unfold well_typed_at at 1. simpl.
    destruct (entry !! key) as [v|] eqn:Hkey.
    + destruct (isinstance v t) eqn:Hty.
      * rewrite IH. split; [eauto | tauto].
      * split; [done|]. intros [(v' & [= <-] & Hv') _]. congruence.
    + split; [done|]. by intros [(v' & [=] & _) _].
Qed.

Lemma validate_keys_accepts (keys : list (string * pytype))
    (entry : gmap string json) (message : string) :
  validate_keys keys entry = (true, message) ->
  Forall (well_typed_at entry) keys.
Proof.
  induction keys as [|[key t] keys IH]; simpl; [constructor|].
  destruct (entry !! key) as [v|] eqn:Hkey; [|done].
  destruct (isinstance v t) eqn:Hty; [|done].
  intros H. constructor; [by exists v | by apply IH].
Qed.

(** Past a well-typed prefix, the loop stands at the next key. *)
Lemma validate_keys_skip (before after : list (string * pytype))
    (entry : gmap string json) :
  Forall (well_typed_at entry) before ->
  validate_keys (before ++ after) entry = validate_keys after entry.
Proof.
  induction 1 as [|[key t] before (v & Hkey & Hty) _ IH]; simpl; [done|].
  simpl in Hkey, Hty. by rewrite Hkey, Hty.
Qed.

(** C3, refuted as stated.  An absent key is not reported when an
    earlier key has the wrong type, and a string under
    [materials_accepted] is not reported when an earlier key is absent:
    the loop stops at the first key that is absent or ill-typed. *)
Lemma validate_structure_stops_at_first_defect :
  ~ reports_first_missing_key /\ ~ reports_string_materials.
Proof.
  split.
  - intros H.
    specialize (H {["business_name" := JInt 5]} "last_update_date" eq_refl).
    vm_compute in H. discriminate.
  - intros H.
    specialize (H {["materials_accepted" := JStr "Glass"]} "Glass" eq_refl).
    vm_compute in H. discriminate.
Qed.

(** C3, as amended.  [validate_structure] returns [(True, "Valid")]
    exactly when the five required keys are present with values of their
    types.  Otherwise it reports the first key, in declaration order,
    that is absent or ill-typed, every key before it being present and
    well typed: [Missing key: <name>] when that key is absent,
    [Wrong type for <name>: expected <type>] when it is present with a
    value of another type.  In particular, when the four keys declared
    before [materials_accepted] are well typed and [materials_accepted]
    holds a string, the answer is
    [Wrong type for materials_accepted: expected list]. *)
Theorem validate_structure_first_defect (entry : gmap string json) :
  (validate_structure entry = (true, "Valid")
   <-> Forall (well_typed_at entry) required_keys)
  /\ (forall before key t after,
        required_keys = before ++ (key, t) :: after ->
        Forall (well_typed_at entry) before ->
        (entry !! key = None ->
         validate_structure entry = (false, "Missing key: " +:+ key))
        /\ (forall v, entry !! key = Some v -> isinstance v t = false ->
            validate_structure entry
            = (false, "Wrong type for " +:+ key +:+ ": expected "
                        +:+ type_name t)))
  /\ (forall s,
        Forall (well_typed_at entry) (firstn 4 required_keys) ->
        entry !! "materials_accepted" = Some (JStr s) ->
        validate_structure entry
        = (false, "Wrong type for materials_accepted: expected list")).
Proof.
  unfold validate_structure. split_and!.
  - apply validate_keys_valid.
  - intros before key t after -> Hbefore.
    rewrite validate_keys_skip by done. simpl.
    split.
    + by intros ->.
    + by intros v -> ->.
  - intros s Hfour Hma.
    change required_keys
      with (firstn 4 required_keys ++ [("materials_accepted", list_)]).
    rewrite validate_keys_skip by done. simpl. by rewrite Hma.
Qed.

Lemma validate_structure_first_defect_witness :
  validate_structure
    (<["business_name" := JStr "Acme"]>
       (<["last_update_date" := JStr "2024-01-01"]>
          (<["street_address" := JStr "1 Main St"]>
             (<["materials_category" := electronics]>
                {["materials_accepted" := JStr "Glass"]}))))
  = (false, "Wrong type for materials_accepted: expected list").
Proof.
  apply (proj2 (proj2 (validate_structure_first_defect _)) "Glass").
  - repeat constructor; eexists; (split; [reflexivity | reflexivity]).
  - reflexivity.
Defined.

(* ================================================================== *)
(** ** The table extractor *)
(* ================================================================== *)

(** The loop appends, to what it already holds, the material names of
    the rows it visits. *)
Lemma fold_add_material (rows : list node) (materials : list string) :
  fold_left add_material rows materials
  = materials
      ++ List.filter nonempty (get_text EmptyString <$> omap material_cell rows).
Proof.
  revert materials.
  induction rows as [|row rows IH]; intros materials; simpl.
  - by rewrite app_nil_r.
  - rewrite IH. unfold add_material.
    destruct (material_cell row) as [cell|]; simpl; [|done].
    destruct (nonempty (get_text EmptyString cell)); [|done].
    by rewrite <- app_assoc.
Qed.

(** Below nodes none of which matches the ancestor selector, and with
    no ancestor matched so far, [select] finds nothing. *)
Lemma select_below_nothing (anc sel : node -> bool) (n : node) :
  anc n = false ->
  Forall (fun d => anc d = false) (descendants n) ->
  select_below anc sel false n = [].
Proof.
  induction n as [s|s|name attrs cs IH] using node_tree_ind;
    intros Hn Hdesc; simpl; [done..|].
  rewrite Hn. simpl in *. clear Hn.
  induction IH as [|c cs Hc _ IHcs]; simpl in *; [done|].
  apply Forall_cons in Hdesc as [Hc0 Hdesc].
  apply Forall_app in Hdesc as [Hcd Hdesc].
  by rewrite Hc, IHcs.
Qed.

Lemma elem_of_flat_map {A B : Type} (f : A -> list B) (l : list A) (y : B) :
  y ∈ flat_map f l <-> exists x, x ∈ l /\ y ∈ f x.
Proof.
  rewrite list_elem_of_In, in_flat_map.
  by setoid_rewrite list_elem_of_In.
Qed.

Section Selecting.
Variables anc sel : node -> bool.

(** The selection is in document order. *)
Lemma select_below_sublist (n : node) (inside : bool) :
  select_below anc sel inside n `sublist_of` n :: descendants n.
Proof.
  revert inside.
  induction n as [s|s|name attrs cs IH] using node_tree_ind;
    intros inside; simpl; [apply sublist_nil_l..|].
  assert (Hcs : forall b,
             flat_map (select_below anc sel b) cs
             `sublist_of` flat_map (fun c => c :: descendants c) cs).
  { intros b. induction IH as [|c cs Hc _ IHcs]; simpl; [constructor|].
    apply (sublist_app _ (c :: descendants c)); [apply Hc | apply IHcs]. }
  destruct (inside && sel _); simpl;
    [apply sublist_skip | apply sublist_cons]; apply Hcs.
Qed.

Lemma select_sublist (s : soup) :
  select anc sel s `sublist_of` soup_descendants s.
Proof.
  unfold select, soup_descendants.
  induction s as [|c s IH]; simpl; [constructor|].
  apply (sublist_app _ (c :: descendants c));
    [apply select_below_sublist | apply IH].
Qed.

(** What is selected matches [sel] and, unless an ancestor of [n]
    already matched [anc], lies below a match of [anc] found at [n] or
    under it. *)
Lemma select_below_sound (n x : node) (inside : bool) :
  x ∈ select_below anc sel inside n ->
  sel x = true
  /\ (inside = true
      \/ exists a, a ∈ n :: descendants n /\ anc a = true
                   /\ x ∈ descendants a).
Proof.
  revert inside.
  induction n as [s|s|name attrs cs IH] using node_tree_ind;
    intros inside; simpl; [by intros ?%elem_of_nil..|].
  rewrite Forall_forall in IH.
  intros [Hhere|Hbelow]%elem_of_app.
  - destruct inside; simpl in Hhere; [|by apply elem_of_nil in Hhere].
    destruct (sel (Element name attrs cs)) eqn:Hsel;
      [|by apply elem_of_nil in Hhere].
    apply list_elem_of_singleton in Hhere as ->. auto.
  - apply elem_of_flat_map in Hbelow as (c & Hc & Hx).
    pose proof (elem_of_sublist _ _ _ Hx (select_below_sublist c _)) as Hin.
    apply (IH c Hc) in Hx as (Hsel & Hx). split; [done|].
    destruct Hx as [[->| Hanc]%orb_true_iff|(a & Ha & Hanc & Hx)]; [auto|..].
    + right. exists (Element name attrs cs).
      split_and!; [by left | done |].
      apply elem_of_flat_map. by exists c.
    + right. exists a. split_and!; [|done..].
      right. apply elem_of_flat_map. by exists c.
Qed.

(** Below a match of [anc], every element matching [sel] is selected. *)
Lemma select_below_inside (n x : node) :
  x ∈ n :: descendants n -> is_Some (tag_name x) -> sel x = true ->
  x ∈ select_below anc sel true n.
Proof.
  induction n as [s|s|name attrs cs IH] using node_tree_ind; simpl.
  - intros [->|[]%elem_of_nil]%elem_of_cons [? [=]].
  - intros [->|[]%elem_of_nil]%elem_of_cons [? [=]].
  - rewrite Forall_forall in IH.
    intros [->|Hx]%elem_of_cons Htag Hsel.
    + rewrite Hsel. by left.
    + apply elem_of_app. right.
      apply elem_of_flat_map in Hx as (c & Hc & Hx).
      apply elem_of_flat_map. exists c. split; [done|].
      by apply IH.
Qed.

(** Every element matching [sel] below a match of [anc] is selected. *)
Lemma select_below_complete (n a x : node) (inside : bool) :
  a ∈ n :: descendants n -> anc a = true -> x ∈ descendants a ->
  is_Some (tag_name x) -> sel x = true ->
  x ∈ select_below anc sel inside n.
Proof.
  revert inside.
  induction n as [s|s|name attrs cs IH] using node_tree_ind; intros inside.
  - by intros [->|[]%elem_of_nil]%elem_of_cons _ ?%elem_of_nil.
  - by intros [->|[]%elem_of_nil]%elem_of_cons _ ?%elem_of_nil.
  - rewrite Forall_forall in IH.
    intros Ha Hanc Hx Htag Hsel. simpl.
    apply elem_of_app. right. apply elem_of_flat_map.
    apply elem_of_cons in Ha as [->|Ha].
    + rewrite Hanc, orb_true_r.
      simpl in Hx. apply elem_of_flat_map in Hx as (c & Hc & Hx).
      exists c. split; [done|]. by apply select_below_inside.
    + simpl in Ha. apply elem_of_flat_map in Ha as (c & Hc & Ha).
      exists c. split; [done|]. by apply (IH c Hc _ Ha).
Qed.

(** [select]: exactly the elements matching [sel] that lie below an
    element matching [anc]. *)
Lemma select_spec (s : soup) (x : node) :
  (forall y, sel y = true -> is_Some (tag_name y)) ->
  x ∈ select anc sel s
  <-> sel x = true
      /\ exists a, a ∈ soup_descendants s /\ anc a = true
                   /\ x ∈ descendants a.
Proof.
  intros Htag. unfold select, soup_descendants. split.
  - intros (c & Hc & Hx)%elem_of_flat_map.
    apply select_below_sound in Hx as (Hsel & [?|(a & Ha & Hanc & Hx)]);
      [done|].
    split; [done|]. exists a. split_and!; [|done..].
    apply elem_of_flat_map. by exists c.
  - intros (Hsel & a & (c & Hc & Ha)%elem_of_flat_map & Hanc & Hx).
    apply elem_of_flat_map. exists c. split; [done|].
    apply (select_below_complete c a); auto.
Qed.
End Selecting.

Lemma select_table_absent (sel : node -> bool) (s : soup) :
  table_absent s -> select is_materials_table sel s = [].
Proof.
  unfold table_absent, select, soup_descendants.
  induction s as [|c s IH]; simpl; [done|].
  intros Hall.
  apply Forall_cons in Hall as [Hc Hall].
  apply Forall_app in Hall as [Hcd Hall].
  by rewrite select_below_nothing, IH.
Qed.

(** [List.find] returns the first element that passes the test. *)
Lemma find_first {A : Type} (p : A -> bool) (l : list A) :
  match List.find p l with
  | Some x =>
      exists before after,
        l = before ++ x :: after /\ p x = true
        /\ Forall (fun y => p y = false) before
  | None => Forall (fun y => p y = false) l
  end.
Proof.
  induction l as [|a l IH]; simpl; [constructor|].
  destruct (p a) eqn:Ha.
  - exists [], l. split_and!; [done | done | constructor].
  - destruct (List.find p l) as [x|].
    + destruct IH as (before & after & -> & Hx & Hb).
      exists (a :: before), after. split_and!; [done | done | by constructor].
    + by constructor.
Qed.

(** The attribute lookup returns the value of the first pair under the
    key. *)
Lemma attr_spec (key name : string) (attrs : list (string * string))
    (cs : list node) (v : string) :
  attr key (Element name attrs cs) = Some v <-> attribute_value key attrs v.
Proof.
  unfold attribute_value. simpl.
  induction attrs as [|[k x] attrs IH]; simpl.
  - split; [done|]. intros (pre & post & Heq & _). by destruct pre.
  - destruct (String.eqb k key) eqn:Hk; simpl.
    + apply String.eqb_eq in Hk as ->. split.
      * intros [= ->]. exists [], attrs. split; [done | constructor].
      * intros (pre & post & Heq & Hpre).
        destruct pre as [|[k' x'] pre]; simpl in Heq.
        -- by injection Heq as ->.
        -- injection Heq as -> -> _.
           by apply Forall_cons in Hpre as [Hne _].
    + apply String.eqb_neq in Hk. rewrite IH. split.
      * intros (pre & post & -> & Hpre).
        exists ((k, x) :: pre), post. split; [done | by constructor].
      * intros (pre & post & Heq & Hpre).
        destruct pre as [|[k' x'] pre]; simpl in Heq.
        -- by injection Heq as -> _ _.
        -- injection Heq as -> -> ->.
           apply Forall_cons in Hpre as [_ Hpre]. by exists pre, post.
Qed.

Lemma last_is_space_cons (c : ascii) (pre : string) :
  last_is_space pre = true -> last_is_space (String c pre) = true.
Proof. by destruct pre. Qed.

(** Every word the scan of the [class] value yields is the word under
    construction extended to the next whitespace, or a later run of
    characters between whitespace. *)
Lemma words_from_sound (s : string) : forall cur w : string,
  w ∈ words_from cur s ->
  (exists a rest,
     s = a +:+ rest /\ no_space a = true
     /\ (rest = EmptyString \/ first_is_space rest = true)
     /\ w = cur +:+ a /\ w <> EmptyString)
  \/ (exists pre post,
        s = pre +:+ w +:+ post /\ last_is_space pre = true
        /\ w <> EmptyString /\ no_space w = true
        /\ (post = EmptyString \/ first_is_space post = true)).
Proof.
  induction s as [|c s IH]; intros cur w; simpl.
  - destruct cur as [|d cur]; [by intros ?%elem_of_nil|].
    intros ->%list_elem_of_singleton. left.
    exists EmptyString, EmptyString. rewrite !append_nil_r.
    split_and!; auto.
  - destruct (isspace c) eqn:Hc.
    + intros Hw.
      assert (Hcases : (cur <> EmptyString /\ w = cur)
                       \/ w ∈ words_from EmptyString s).
      { destruct cur as [|d cur]; [by right|].
        apply elem_of_cons in Hw as [->|Hw]; [by left | by right]. }
      clear Hw. destruct Hcases as [[Hne ->]|Hw].
      * left. exists EmptyString, (String c s). rewrite append_nil_r.
        split_and!; [done | done | by right | done | done].
      * apply IH in Hw
          as [(a & rest & -> & Ha & Hrest & -> & Hne)
             |(pre & post & -> & Hpre & Hne & Hns & Hpost)]; right.
        -- exists (chr c), rest. rewrite append_nil in *.
           split_and!; done.
        -- exists (String c pre), post.
           split_and!; [done | by apply last_is_space_cons | done..].
    + intros Hw.
      apply IH in Hw
        as [(a & rest & -> & Ha & Hrest & -> & Hne)
           |(pre & post & -> & Hpre & Hne & Hns & Hpost)].
      * left. exists (String c a), rest.
        rewrite append_assoc in *.
        split_and!; [done | by simpl; rewrite Hc | done | done | done].
      * right. exists (String c pre), post.
        split_and!; [done | by apply last_is_space_cons | done..].
Qed.

Lemma words_from_complete (s : string) : forall cur w : string,
  (exists a rest,
     s = a +:+ rest /\ no_space a = true
     /\ (rest = EmptyString \/ first_is_space rest = true)
     /\ w = cur +:+ a /\ w <> EmptyString)
  \/ (exists pre post,
        s = pre +:+ w +:+ post /\ last_is_space pre = true
        /\ w <> EmptyString /\ no_space w = true
        /\ (post = EmptyString \/ first_is_space post = true)) ->
  w ∈ words_from cur s.
Proof.
  induction s as [|c s IH]; intros cur w
    [(a & rest & Heq & Ha & Hrest & -> & Hne)
    |(pre & post & Heq & Hpre & Hne & Hw & Hpost)].
  - destruct a; [|done]. rewrite append_nil_r in *. simpl.
    destruct cur; [done | by left].
  - by destruct pre.
  - destruct a as [|d a].
    + rewrite append_nil in Heq. subst rest. rewrite append_nil_r in *.
      destruct Hrest as [|Hc]; [done|]. simpl in *. rewrite Hc.
      destruct cur; [done | by left].
    + rewrite append_cons in Heq. injection Heq as <- ->.
      simpl in Ha. apply andb_true_iff in Ha as [Hc%negb_true_iff Ha].
      simpl. rewrite Hc. apply IH. left. exists a, rest.
      rewrite append_assoc. by split_and!.
  - destruct pre as [|d pre]; [done|].
    rewrite append_cons in Heq. injection Heq as <- ->.
    assert (Hin : w ∈ words_from EmptyString (pre +:+ w +:+ post)
                  \/ (isspace c = false /\ pre <> EmptyString)).
    { destruct pre as [|e pre].
      - left. apply IH. left. exists w, post. by split_and!.
      - destruct (isspace c) eqn:Hc; [left | by right].
        apply IH. right. exists (String e pre), post. by split_and!. }
    simpl. destruct Hin as [Hin|[Hc Hpre0]].
    + destruct (isspace c) eqn:Hc.
      * destruct cur; [done | by right].
      * destruct pre as [|e pre]; [simpl in Hpre; congruence|].
        apply IH. right. exists (String e pre), post. by split_and!.
    + rewrite Hc. apply IH. right. exists pre, post.
      split_and!; [done | by destruct pre | done..].
Qed.

(** The words of a [class] value are its runs of characters that are
    not whitespace. *)
Lemma words_spec (w v : string) : w ∈ words v <-> word_of w v.
Proof.
  unfold words, word_of. split.
  - intros [(a & rest & -> & Ha & Hrest & -> & Hne)
           |(pre & post & -> & Hpre & Hne & Hw & Hpost)]%words_from_sound.
    + rewrite append_nil in *. split_and!; [done..|].
      exists EmptyString, rest. split_and!; auto.
    + split_and!; [done..|]. exists pre, post. split_and!; auto.
  - intros (Hne & Hw & pre & post & -> & [->|Hpre] & Hpost);
      apply words_from_complete.
    + left. exists w, post. by split_and!.
    + right. exists pre, post. by split_and!.
Qed.

(** The CSS class test, on an element. *)
Lemma has_class_spec (cls name : string) (attrs : list (string * string))
    (cs : list node) :
  has_class cls (Element name attrs cs) = true
  <-> exists v, attribute_value "class" attrs v /\ word_of cls v.
Proof.
  unfold has_class, classes. rewrite existsb_exists.
  destruct (attr "class" (Element name attrs cs)) as [v|] eqn:Hattr.
  - split.
    + intros (x & Hin & <-%String.eqb_eq). exists v.
      split; [by apply (attr_spec _ name _ cs) |].
      by apply words_spec, list_elem_of_In.
    + intros (v' & Hv'%(attr_spec _ name _ cs) & Hw).
      rewrite Hattr in Hv'. injection Hv' as <-.
      exists cls. split; [by apply list_elem_of_In, words_spec|].
      apply String.eqb_refl.
  - split.
    + by intros (x & [] & _).
    + intros (v' & Hv'%(attr_spec _ name _ cs) & _). congruence.
Qed.

Lemma no_space_append_space (x t : string) :
  no_space (x +:+ String " " t) = false.
Proof.
  induction x as [|c x IH]; [done|].
  rewrite append_cons. simpl. rewrite IH. apply andb_false_r.
Qed.

(** For a class name without whitespace, the [class_] filter of [find]
    is the CSS class test: the whole class list joined by spaces equals
    the name only when the name is the one class. *)
Lemma class_filter_spec (cls : string) (n : node) :
  cls <> EmptyString -> no_space cls = true ->
  class_filter cls n = has_class cls n.
Proof.
  intros Hne Hcls. unfold class_filter.
  destruct (attr "class" n) as [v|] eqn:Hattr.
  - destruct (has_class cls n) eqn:Hc; [done|]. simpl.
    apply String.eqb_neq. intros Hjoin.
    unfold has_class in Hc.
    destruct (classes n) as [|x [|y l]].
    + by simpl in Hjoin.
    + simpl in Hjoin, Hc. subst x. by rewrite String.eqb_refl in Hc.
    + change (join " " (x :: y :: l))
        with (x +:+ String " " (join " " (y :: l))) in Hjoin.
      rewrite <- Hjoin in Hcls.
      by rewrite no_space_append_space in Hcls.
  - unfold has_class, classes. by rewrite Hattr.
Qed.

(** The selector [name.cls] picks the elements called [name] one of
    whose classes is [cls]. *)
Lemma element_of_class_spec (name cls : string) (n : node) :
  has_name name n && has_class cls n = true <-> element_of_class name cls n.
Proof.
  unfold element_of_class. destruct n as [s|s|t attrs cs].
  - split; [done|]. by intros (? & ? & ? & [=] & _).
  - split; [done|]. by intros (? & ? & ? & [=] & _).
  - unfold has_name. simpl tag_name.
    rewrite andb_true_iff, String.eqb_eq, has_class_spec. split.
    + intros [-> (v & Hv & Hw)]. by exists attrs, cs, v.
    + intros (attrs' & cs' & v & [= -> -> ->] & Hv & Hw).
      split; [done | by exists v].
Qed.

Lemma is_materials_table_spec (n : node) :
  is_materials_table n = true <-> materials_table n.
Proof. apply element_of_class_spec. Qed.

Lemma is_row_spec (n : node) : is_row n = true <-> table_row n.
Proof.
  unfold is_row, has_name, table_row. destruct n as [s|s|t attrs cs]; simpl.
  - split; [done|]. by intros (? & ? & [=]).
  - split; [done|]. by intros (? & ? & [=]).
  - rewrite String.eqb_eq. split.
    + intros ->. by exists attrs, cs.
    + by intros (? & ? & [= -> _ _]).
Qed.

(** What [find("td", class_="material-name")] tests. *)
Lemma is_material_cell_spec (n : node) :
  is_material_cell n = true <-> material_name_cell n.
Proof.
  unfold is_material_cell.
  rewrite class_filter_spec by done. apply element_of_class_spec.
Qed.

Lemma is_material_cell_false (n : node) :
  is_material_cell n = false -> ~ material_name_cell n.
Proof. intros Hn Hcell%is_material_cell_spec. congruence. Qed.

(** Joining on the empty separator writes the pieces one after the
    other, and empty pieces add nothing. *)
Lemma join_empty_separator (l : list string) :
  join EmptyString l = fold_right String.append EmptyString l.
Proof.
  induction l as [|x l IH]; [done|].
  destruct l as [|y l]; [simpl; by rewrite append_nil_r|].
  change (join EmptyString (x :: y :: l))
    with (x +:+ EmptyString +:+ join EmptyString (y :: l)).
  by rewrite append_nil, IH.
Qed.

Lemma concat_filter_nonempty (l : list string) :
  fold_right String.append EmptyString (List.filter nonempty l)
  = fold_right String.append EmptyString l.
Proof.
  induction l as [|x l IH]; [done|]. simpl.
  destruct x as [|c x]; simpl; [by rewrite append_nil | by rewrite IH].
Qed.

Lemma concat_app (a b : list string) :
  fold_right String.append EmptyString (a ++ b)
  = fold_right String.append EmptyString a
      +:+ fold_right String.append EmptyString b.
Proof.
  induction a as [|x a IH]; simpl; [done|]. by rewrite IH, append_assoc.
Qed.

Lemma cell_text_strings (n : node) :
  fold_right String.append EmptyString (strip <$> strings n) = cell_text n.
Proof.
  induction n as [s|s|name attrs cs IH] using node_tree_ind; simpl;
    [apply append_nil_r | done |].
  induction IH as [|c cs Hc _ IHcs]; simpl; [done|].
  by rewrite fmap_app, concat_app, Hc, IHcs.
Qed.

(** [get_text(strip=True)] of an element: its text strings, each one
    stripped, written one after the other. *)
Lemma get_text_cell (name : string) (attrs : list (string * string))
    (cs : list node) :
  get_text EmptyString (Element name attrs cs)
  = cell_text (Element name attrs cs).
Proof.
  unfold get_text, get_text_of. simpl children.
  rewrite join_empty_separator, concat_filter_nonempty.
  apply (cell_text_strings (Element name attrs cs)).
Qed.

(** What the loop collects from the rows is what the rows give. *)
Lemma names_of_rows_collected (rows : list node) :
  names_of_rows rows
    (List.filter nonempty (get_text EmptyString <$> omap material_cell rows)).
Proof.
  induction rows as [|row rows IH]; [constructor|].
  pose proof (find_first is_material_cell (descendants row)) as Hfind.
  simpl. unfold material_cell at 1, find.
  fold is_material_cell.
  destruct (List.find is_material_cell (descendants row)) as [cell|].
  - destruct Hfind as (before & after & Hdesc & Hcell & Hbefore).
    apply is_material_cell_spec in Hcell.
    assert (Hfirst : first_material_cell row cell).
    { exists before, after. split_and!; [done | done |].
      eapply Forall_impl; [exact Hbefore|]. apply is_material_cell_false. }
    destruct (Hcell) as (attrs & cs & v & -> & _).
    simpl. rewrite get_text_cell.
    destruct (cell_text (Element "td" attrs cs)) as [|c t] eqn:Htext.
    + by apply (names_empty_cell _ _ _ _ Hfirst).
    + simpl. rewrite <- Htext.
      apply (names_cell _ _ _ _ Hfirst); [by rewrite Htext | done].
  - apply names_no_cell; [|done].
    eapply Forall_impl; [exact Hfind|]. apply is_material_cell_false.
Qed.

Lemma no_materials_table_absent (s : soup) :
  no_materials_table s -> table_absent s.
Proof.
  unfold no_materials_table, table_absent. intros Hnone.
  eapply Forall_impl; [exact Hnone|]. simpl. intros n Hn.
  destruct (is_materials_table n) eqn:Htable; [|done].
  by apply is_materials_table_spec in Htable.
Qed.

(** A row has at most one first material-name cell, and none when no
    material-name cell lies below it: the rows give one list of names. *)
Lemma first_material_cell_unique (row c1 c2 : node) :
  first_material_cell row c1 -> first_material_cell row c2 -> c1 = c2.
Proof.
  intros (b1 & a1 & H1 & Hc1 & Hb1) (b2 & a2 & H2 & Hc2 & Hb2).
  rewrite H1 in H2. clear H1. revert b2 H2 Hb2.
  induction Hb1 as [|x b1 Hx Hb1 IH]; intros [|y b2] H2 Hb2; simpl in H2.
  - by injection H2.
  - injection H2 as -> _. by apply Forall_cons in Hb2 as [Hy _].
  - by injection H2 as -> _.
  - injection H2 as _ H2. apply Forall_cons in Hb2 as [_ Hb2].
    by apply (IH b2).
Qed.

Lemma first_material_cell_not_lacking (row cell : node) :
  first_material_cell row cell -> ~ lacks_material_cell row.
Proof.
  intros (b & a & H & Hc & _) Hl. unfold lacks_material_cell in Hl.
  rewrite H in Hl. apply Forall_app in Hl as [_ Hl].
  by apply Forall_cons in Hl as [Hn _].
Qed.

Lemma names_of_rows_functional (rows : list node) (n1 n2 : list string) :
  names_of_rows rows n1 -> names_of_rows rows n2 -> n1 = n2.
Proof.
  intros H1. revert n2.
  induction H1 as [|row rows names Hl _ IH
                  |row cell rows names Hf Ht _ IH
                  |row cell rows names Hf Ht _ IH];
    intros n2 H2;
    inversion H2 as [|? ? ? Hl' H2'
                    |? cell' ? ? Hf' Ht' H2'
                    |? cell' ? ? Hf' Ht' H2']; subst;
    try done;
    try (by destruct (first_material_cell_not_lacking _ _ Hf Hl'));
    try (by destruct (first_material_cell_not_lacking _ _ Hf' Hl));
    try (pose proof (first_material_cell_unique _ _ _ Hf Hf') as ->);
    try congruence; try f_equal; by apply IH.
Qed.

(** C4, refuted as stated.  On a table whose one row holds two
    material-name cells, [A] and then [B], the extractor returns [A]
    alone: the second cell is a material-name cell of a row of the
    table and its text is not empty, yet it is not returned. *)
Lemma second_cell_of_row_is_dropped :
  HtmlLite.parse two_cell_page = two_cell_tree
  /\ extract_materials_accepted HtmlLite.parse two_cell_page = ["A"]
  /\ ~ lists_every_material_cell.
Proof.
  split; [by vm_compute|]. split; [by vm_compute|].
  intros Hall.
  assert (Hclass : forall name cls,
            cls <> EmptyString -> no_space cls = true ->
            forall cs, element_of_class name cls
                         (Element name [("class", cls)] cs)).
  { intros name cls Hne Hcls cs. exists [("class", cls)], cs, cls.
    split_and!; [done | exists [], []; by split |].
    split_and!; [done | done |].
    exists EmptyString, EmptyString. rewrite append_nil_r.
    split_and!; auto. }
  specialize (Hall HtmlLite.parse two_cell_page
    (Element "table" [("class", "materials-accepted")]
       [ Element "tr" []
           [ Element "td" [("class", "material-name")] [Text "A"];
             Element "td" [("class", "material-name")] [Text "B"] ] ])
    (Element "tr" []
       [ Element "td" [("class", "material-name")] [Text "A"];
         Element "td" [("class", "material-name")] [Text "B"] ])
    (Element "td" [("class", "material-name")] [Text "B"])).
  assert (Hin : "B" ∈ ["A"]).
  { apply Hall.
    - vm_compute. by left.
    - by apply Hclass.
    - vm_compute. by left.
    - by exists [], [ Element "td" [("class", "material-name")] [Text "A"];
                      Element "td" [("class", "material-name")] [Text "B"] ].
    - vm_compute. do 2 right. by left.
    - by apply Hclass.
    - by vm_compute. }
  by apply list_elem_of_singleton in Hin.
Qed.

Section ExtractorProperties.
Variable BeautifulSoup : string -> soup.

(** C4, as amended.  For every page, [extract_materials_accepted]
    returns, for the rows of the materials-accepted table taken in
    document order, the text of the first material-name cell below each
    row, unless that text is empty: at most one name per row, whatever
    further material-name cells the row holds; a row below which no
    such cell lies gives nothing.  The rows are the [tr] elements that
    lie below a [table] element one of whose classes is
    [materials-accepted]; a material-name cell is a [td] element one of
    whose classes is [material-name]; the text of a cell is made of the
    text strings below it, each one stripped, written one after the
    other.  When the page has no such table the result is the empty
    list. *)
Theorem extract_materials_accepted_first_cells (html : string) :
  let page := BeautifulSoup html in
  let rows := select is_materials_table is_row page in
  (forall names,
     names_of_rows rows names
     <-> names = extract_materials_accepted BeautifulSoup html)
  /\ rows `sublist_of` soup_descendants page
  /\ (forall row,
        row ∈ rows
        <-> table_row row
            /\ exists table, table ∈ soup_descendants page
                             /\ materials_table table
                             /\ row ∈ descendants table)
  /\ (no_materials_table page ->
      extract_materials_accepted BeautifulSoup html = []).
Proof.
  intros page rows. split_and!.
  - assert (Hrows : names_of_rows rows
                      (extract_materials_accepted BeautifulSoup html)).
    { unfold extract_materials_accepted. rewrite fold_add_material.
      apply names_of_rows_collected. }
    intros names. split; [|by intros ->].
    intros Hnames. by apply (names_of_rows_functional rows).
  - apply select_sublist.
  - intros row. unfold rows. rewrite select_spec.
    + rewrite is_row_spec. by setoid_rewrite is_materials_table_spec.
    + intros [| |name attrs cs]; by eauto.
  - intros Habsent%no_materials_table_absent.
    unfold extract_materials_accepted.
    fold page. by rewrite select_table_absent.
Qed.

(** C9.  On the table whose rows are
    [<tr><td class="material-name">Glass</td></tr><tr><td>NoClass</td></tr>]
    the extractor returns the one-element list [Glass]: the second
    row has no cell of class material-name and is skipped. *)
Theorem extract_materials_accepted_glass :
  BeautifulSoup glass_page = glass_tree ->
  extract_materials_accepted BeautifulSoup glass_page = ["Glass"].
Proof.
  intros Htree. unfold extract_materials_accepted. rewrite Htree.
  vm_compute. reflexivity.
Qed.

End ExtractorProperties.

Lemma extract_materials_accepted_first_cells_witness :
  extract_materials_accepted HtmlLite.parse materials_page
  = ["Batteries"; "CellPhones"; "A"]
  /\ names_of_rows
       (select is_materials_table is_row (HtmlLite.parse materials_page))
       ["Batteries"; "CellPhones"; "A"]
  /\ extract_materials_accepted HtmlLite.parse "<p>No table here</p>" = [].
Proof.
  split; [by vm_compute|]. split.
  - apply (proj1 (extract_materials_accepted_first_cells HtmlLite.parse
                    materials_page)).
    by vm_compute.
  - apply (proj2 (proj2 (proj2
             (extract_materials_accepted_first_cells HtmlLite.parse _)))).
    unfold no_materials_table.
    change (soup_descendants (HtmlLite.parse "<p>No table here</p>"))
      with [Element "p" [] [Text "No table here"]; Text "No table here"].
    repeat constructor; by intros (? & ? & ? & [=] & _).
Defined.

Lemma extract_materials_accepted_glass_witness :
  HtmlLite.parse glass_page = glass_tree
  /\ extract_materials_accepted HtmlLite.parse glass_page = ["Glass"].
Proof.
  split.
  - vm_compute. reflexivity.
  - apply extract_materials_accepted_glass. vm_compute. reflexivity.
Defined.

(* ================================================================== *)
(** ** The orchestrator *)
(* ================================================================== *)

Section OrchestratorProperties.
Variable chain_invoke : string -> exn + string.
Variable json_loads : string -> exn + json.
Variable BeautifulSoup : string -> soup.

(** The functions of the script at this model, parser and tree builder;
    [candidate_after] is the candidate after the two overrides. *)
Local Abbreviation classify :=
  (classify_with_ollama chain_invoke json_loads BeautifulSoup).
Local Abbreviation pages :=
  (process_pages chain_invoke json_loads BeautifulSoup).
Local Abbreviation visible := (extract_visible_text BeautifulSoup).
Local Abbreviation materials := (extract_materials_accepted BeautifulSoup).
Local Abbreviation candidate_after := (overridden BeautifulSoup).

Lemma overridden_category (entry_html : string) (candidate : gmap string json) :
  candidate_after entry_html candidate !! "materials_category" = Some electronics.
Proof.
  unfold overridden.
  rewrite lookup_insert_ne by done. apply lookup_insert_eq.
Qed.

Lemma overridden_accepted (entry_html : string) (candidate : gmap string json) :
  candidate_after entry_html candidate !! "materials_accepted"
  = Some (JArr (JStr <$> materials entry_html)).
Proof. unfold overridden. apply lookup_insert_eq. Qed.

Lemma overridden_other (entry_html key : string)
    (candidate : gmap string json) :
  key <> "materials_accepted" -> key <> "materials_category" ->
  candidate_after entry_html candidate !! key = candidate !! key.
Proof.
  intros H1 H2. unfold overridden. by rewrite !lookup_insert_ne.
Qed.

(** Once the model has answered, every path through the [try] block
    ends in a [return]. *)
Lemma classify_returns_on_answer (entry_html text : string) :
  chain_invoke (visible entry_html) = inr text ->
  exists r, classify entry_html = Returned r.
Proof.
  intros Hanswer. unfold classify_with_ollama. rewrite Hanswer.
  destruct (parse_and_validate _ _ _ _); simpl; eauto.
Qed.

(** What [parse_and_validate] does once the candidate is known. *)
Lemma parse_and_validate_candidate (entry_html raw_response : string)
    (parsed : json) (candidate : gmap string json) :
  json_loads (clean_json_string raw_response) = inr parsed ->
  first_if_list parsed = inr (JObj candidate) ->
  parse_and_validate json_loads BeautifulSoup entry_html raw_response
  = inr (let '(valid, message) :=
           validate_structure (candidate_after entry_html candidate) in
         if valid then FacilityRecord (candidate_after entry_html candidate)
         else ExtractionFailure ("Validation error: " +:+ message)
                (RawCandidate (candidate_after entry_html candidate))).
Proof.
  intros Hloads Hfirst. unfold parse_and_validate.
  rewrite Hloads. simpl. rewrite Hfirst. simpl.
  fold (candidate_after entry_html candidate).
  by destruct (validate_structure _) as [[] message].
Qed.

(** A record comes out of [parse_and_validate] only along the path
    that parsed, found a dict, overrode it and validated it. *)
Lemma parse_and_validate_record (entry_html raw_response : string)
    (record : gmap string json) :
  parse_and_validate json_loads BeautifulSoup entry_html raw_response
  = inr (FacilityRecord record) ->
  exists parsed candidate message,
    json_loads (clean_json_string raw_response) = inr parsed
    /\ first_if_list parsed = inr (JObj candidate)
    /\ record = candidate_after entry_html candidate
    /\ validate_structure record = (true, message).
Proof.
  unfold parse_and_validate.
  destruct (json_loads _) as [e|parsed] eqn:Hloads; simpl; [done|].
  destruct (first_if_list parsed) as [e|first] eqn:Hfirst; simpl; [done|].
  destruct first as [| | | | | |candidate]; simpl; try done.
  fold (candidate_after entry_html candidate).
  destruct (validate_structure _) as [[] message] eqn:Hvalid; simpl; [|done].
  intros [= <-]. by exists parsed, candidate, message.
Qed.

(** C1, on the failing input.  When the model call itself raises, no
    response text was ever bound; the handler's read of
    [raw_response] raises in turn and that exception leaves
    [classify_with_ollama]. *)
Theorem model_failure_escapes (entry_html : string) (e : exn) :
  chain_invoke (visible entry_html) = inl e ->
  classify entry_html
  = Raised (Exn "UnboundLocalError"
              "cannot access local variable 'raw_response' where it is not associated with a value").
Proof. intros Hfail. unfold classify_with_ollama. by rewrite Hfail. Qed.

(** C2.  When [classify_with_ollama] returns a record, its
    [materials_category] is the one-element list [Electronics] and its
    [materials_accepted] is [extract_materials_accepted] of the same
    page, whatever the model proposed for the two; the record is the
    candidate parsed from the model's answer with these two fields
    overridden, so [business_name], [last_update_date] and
    [street_address] are the candidate's, and they are strings. *)
Theorem facility_record_fields (entry_html : string)
    (record : gmap string json) :
  classify entry_html = Returned (FacilityRecord record) ->
  record !! "materials_category" = Some electronics
  /\ record !! "materials_accepted"
     = Some (JArr (JStr <$> materials entry_html))
  /\ exists text parsed candidate,
       chain_invoke (visible entry_html) = inr text
       /\ json_loads (clean_json_string (unfence text)) = inr parsed
       /\ first_if_list parsed = inr (JObj candidate)
       /\ record = candidate_after entry_html candidate
       /\ Forall (fun key =>
                    record !! key = candidate !! key
                    /\ exists s, candidate !! key = Some (JStr s))
            ["business_name"; "last_update_date"; "street_address"].
Proof.
  unfold classify_with_ollama.
  destruct (chain_invoke _) as [e|text] eqn:Hanswer; simpl; [done|].
  destruct (parse_and_validate _ _ _ _) as [e|r] eqn:Hbody; simpl; [done|].
  intros [= ->].
  apply parse_and_validate_record
    in Hbody as (parsed & candidate & message & Hloads & Hfirst & -> & Hvalid).
  split; [apply overridden_category|].
  split; [apply overridden_accepted|].
  exists text, parsed, candidate. do 4 (split; [done|]).
  apply validate_keys_accepts in Hvalid.
  pose proof (overridden_other entry_html) as Hkeep.
  assert (Hstr : forall key,
             In (key, str) required_keys ->
             key <> "materials_accepted" -> key <> "materials_category" ->
             candidate_after entry_html candidate !! key = candidate !! key
             /\ exists s, candidate !! key = Some (JStr s)).
  { intros key Hin H1 H2. split; [by apply Hkeep|].
    rewrite Forall_forall in Hvalid.
    destruct (Hvalid (key, str)) as (v & Hv & Hty);
      [by apply list_elem_of_In|].
    simpl in Hv, Hty. rewrite Hkeep in Hv by done.
    destruct v; try done. by eexists. }
  repeat constructor; apply Hstr; simpl; auto; done.
Qed.

(** C7.  When [json.loads] rejects the sanitized answer,
    [classify_with_ollama] returns an error dictionary whose message
    is [JSON decode error:] followed by the parser's message and whose
    [raw_output] is the response text as it stood then (the model's
    answer, reduced to its fenced block if it had one), never a
    record. *)
Theorem parse_failure_reported (entry_html text : string) (e : exn) :
  chain_invoke (visible entry_html) = inr text ->
  json_loads (clean_json_string (unfence text)) = inl e ->
  classify entry_html
  = Returned (ExtractionFailure ("JSON decode error: " +:+ exn_str e)
                (RawText (unfence text)))
  /\ error_prefixed "JSON decode error:"
       (ExtractionFailure ("JSON decode error: " +:+ exn_str e)
          (RawText (unfence text))) = true.
Proof.
  intros Hanswer Hloads. split.
  - unfold classify_with_ollama, parse_and_validate.
    rewrite Hanswer. simpl. by rewrite Hloads.
  - reflexivity.
Qed.

(** C8.  When the overridden candidate fails validation,
    [classify_with_ollama] returns an error dictionary whose message
    is [Validation error:] followed by the validator's message and
    whose [raw_output] is the candidate with [materials_category] and
    [materials_accepted] already overridden, not the model's text. *)
Theorem validation_failure_reported (entry_html text : string)
    (parsed : json) (candidate : gmap string json) (message : string) :
  chain_invoke (visible entry_html) = inr text ->
  json_loads (clean_json_string (unfence text)) = inr parsed ->
  first_if_list parsed = inr (JObj candidate) ->
  validate_structure (candidate_after entry_html candidate) = (false, message) ->
  classify entry_html
  = Returned (ExtractionFailure ("Validation error: " +:+ message)
                (RawCandidate (candidate_after entry_html candidate)))
  /\ error_prefixed "Validation error:"
       (ExtractionFailure ("Validation error: " +:+ message)
          (RawCandidate (candidate_after entry_html candidate))) = true
  /\ candidate_after entry_html candidate !! "materials_category"
     = Some electronics
  /\ candidate_after entry_html candidate !! "materials_accepted"
     = Some (JArr (JStr <$> materials entry_html)).
Proof.
  intros Hanswer Hloads Hfirst Hvalid. split_and!.
  - unfold classify_with_ollama. rewrite Hanswer.
    rewrite (parse_and_validate_candidate _ _ parsed candidate) by done.
    by rewrite Hvalid.
  - reflexivity.
  - apply overridden_category.
  - apply overridden_accepted.
Qed.

(** The loop over a list of pages splits at any point. *)
Lemma process_pages_app (before after : list string) (acc : list result) :
  pages (before ++ after) acc
  = match pages before acc with
    | Returned entries => pages after entries
    | Raised e => Raised e
    end.
Proof.
  revert acc. induction before as [|page before IH]; intros acc; simpl;
    [done|].
  by destruct (classify page).
Qed.

(** C10.  When the sanitized answer parses as the empty array,
    [classify_with_ollama] returns an error dictionary whose message
    is [JSON decode error: list index out of range] (indexing the
    first element failed), not a record and not an exception; and in
    a run over several pages that dictionary is appended for this
    page and the loop goes on with the pages after it. *)
Theorem empty_array_reported (entry_html text : string) :
  chain_invoke (visible entry_html) = inr text ->
  json_loads (clean_json_string (unfence text)) = inr (JArr []) ->
  let failure :=
    ExtractionFailure "JSON decode error: list index out of range"
      (RawText (unfence text)) in
  classify entry_html = Returned failure
  /\ error_prefixed "JSON decode error:" failure = true
  /\ forall before after acc,
       pages (before ++ entry_html :: after) acc
       = match pages before acc with
         | Returned entries => pages after (entries ++ [failure])
         | Raised e => Raised e
         end.
Proof.
  intros Hanswer Hloads failure.
  assert (Hone : classify entry_html = Returned failure).
  { unfold classify_with_ollama, parse_and_validate.
    rewrite Hanswer. simpl. by rewrite Hloads. }
  split_and!; [done..|].
  intros before after acc. rewrite process_pages_app.
  destruct (pages before acc); [|done].
  simpl. by rewrite Hone.
Qed.

End OrchestratorProperties.

Lemma model_failure_escapes_witness :
  classify_with_ollama (fails connection_refused) JsonLite.loads HtmlLite.parse
    acme_page
  = Raised (Exn "UnboundLocalError"
              "cannot access local variable 'raw_response' where it is not associated with a value").
Proof.
  apply (model_failure_escapes _ _ _ _ connection_refused). reflexivity.
Defined.

Lemma facility_record_fields_witness :
  classify_with_ollama (answers acme_answer) JsonLite.loads HtmlLite.parse
    acme_page
  = Returned (FacilityRecord acme_record)
  /\ acme_record !! "materials_category" = Some electronics
  /\ acme_record !! "materials_accepted"
     = Some (JArr (JStr <$> extract_materials_accepted HtmlLite.parse acme_page)).
Proof.
  assert (Hrun : classify_with_ollama (answers acme_answer) JsonLite.loads
                   HtmlLite.parse acme_page
                 = Returned (FacilityRecord acme_record))
    by (vm_compute; reflexivity).
  split; [exact Hrun|].
  destruct (facility_record_fields _ _ _ _ _ Hrun) as (Hcategory & Haccepted & _).
  split; [exact Hcategory | exact Haccepted].
Defined.

Lemma parse_failure_reported_witness :
  classify_with_ollama (answers "Sorry, I cannot read this page.")
    JsonLite.loads HtmlLite.parse acme_page
  = Returned (ExtractionFailure "JSON decode error: Expecting value"
                (RawText "Sorry, I cannot read this page.")).
Proof.
  apply (parse_failure_reported _ _ _ _ "Sorry, I cannot read this page."
           (Exn "JSONDecodeError" "Expecting value")).
  - reflexivity.
  - vm_compute. reflexivity.
Defined.

Lemma validation_failure_reported_witness :
  classify_with_ollama (answers (q "{'business_name': 3,}"))
    JsonLite.loads HtmlLite.parse acme_page
  = Returned (ExtractionFailure
                "Validation error: Wrong type for business_name: expected str"
                (RawCandidate
                   (overridden HtmlLite.parse acme_page
                      {["business_name" := JInt 3]}))).
Proof.
  apply (validation_failure_reported _ _ _ _ (q "{'business_name': 3,}")
           (JArr [JObj {["business_name" := JInt 3]}])).
  - reflexivity.
  - vm_compute. reflexivity.
  - reflexivity.
  - vm_compute. reflexivity.
Defined.

Lemma empty_array_reported_witness :
  classify_with_ollama (answers "[]") JsonLite.loads HtmlLite.parse acme_page
  = Returned (ExtractionFailure "JSON decode error: list index out of range"
                (RawText "[]")).
Proof.
  apply (empty_array_reported (answers "[]") JsonLite.loads HtmlLite.parse
           acme_page "[]").
  - reflexivity.
  - vm_compute. reflexivity.
Defined.

(* ================================================================== *)
(** ** Further properties: the validator *)
(* ================================================================== *)

(** The verdict depends on the entry only through the required keys. *)
Lemma validate_keys_ext (keys : list (string * pytype))
    (entry1 entry2 : gmap string json) :
  (forall key, key ∈ keys.*1 -> entry1 !! key = entry2 !! key) ->
  validate_keys keys entry1 = validate_keys keys entry2.
Proof.
  induction keys as [|[key t] keys IH]; intros Hsame; simpl; [done|].
  rewrite (Hsame key) by (simpl; left).
  rewrite IH; [done|]. intros k Hk. apply Hsame. simpl. by right.
Qed.

(** A verdict with a true flag carries the message [Valid]. *)
Lemma validate_keys_true_valid (keys : list (string * pytype))
    (entry : gmap string json) (message : string) :
  validate_keys keys entry = (true, message) -> message = "Valid".
Proof.
  induction keys as [|[key t] keys IH]; simpl; [by intros [= <-]|].
  destruct (entry !! key) as [v|]; [|done].
  destruct (isinstance v t); [exact IH | done].
Qed.

(** The loop over two runs of keys: the second run is reached only
    when the first one passes. *)
Lemma validate_keys_app (keys1 keys2 : list (string * pytype))
    (entry : gmap string json) :
  validate_keys (keys1 ++ keys2) entry
  = if (validate_keys keys1 entry).1 then validate_keys keys2 entry
    else validate_keys keys1 entry.
Proof.
  induction keys1 as [|[key t] keys1 IH]; simpl; [done|].
  destruct (entry !! key) as [v|]; [|done].
  by destruct (isinstance v t).
Qed.

(** X1.  Keys other than the five required ones play no part: adding
    or changing such a key leaves the verdict as it was, so a dictionary
    with extra fields is accepted like the same dictionary without
    them. *)
Theorem validate_structure_ignores_extra_keys (entry : gmap string json)
    (key : string) (v : json) :
  key ∉ required_keys.*1 ->
  validate_structure (<[key := v]> entry) = validate_structure entry.
Proof.
  intros Hextra. apply validate_keys_ext.
  intros k Hk. apply lookup_insert_ne. by intros ->.
Qed.

Lemma validate_structure_ignores_extra_keys_witness :
  validate_structure (<["services" := JStr "pickup"]> acme_record)
  = validate_structure acme_record.
Proof.
  apply validate_structure_ignores_extra_keys.
  vm_compute. intros Hin.
  repeat (apply elem_of_cons in Hin as [Heq|Hin]; [discriminate|]).
  by apply elem_of_nil in Hin.
Defined.

(** X2.  Only the class of a value is tested: putting, under any key,
    another value of the same class in place of the one that is there
    leaves the verdict as it was.  In particular the items of the two
    lists are never looked at. *)
Theorem validate_structure_tests_class_only (entry : gmap string json)
    (key : string) (v v' : json) :
  entry !! key = Some v ->
  class_name v' = class_name v ->
  validate_structure (<[key := v']> entry) = validate_structure entry.
Proof.
  intros Hkey Hclass. unfold validate_structure.
  generalize required_keys as keys.
  induction keys as [|[k t] keys IH]; simpl; [done|].
  destruct (decide (k = key)) as [->|Hne].
  - rewrite lookup_insert_eq, Hkey.
    replace (isinstance v' t) with (isinstance v t).
    + by rewrite IH.
    + by destruct v, v', t.
  - rewrite lookup_insert_ne by done. by rewrite IH.
Qed.

Lemma validate_structure_tests_class_only_witness :
  validate_structure
    (<["materials_accepted" := JArr [JInt 1; JNull]]> acme_record)
  = validate_structure acme_record.
Proof.
  apply (validate_structure_tests_class_only _ _ (JArr [JStr "Batteries"]));
    reflexivity.
Defined.

(** A rejection names a key of the run, absent or of the wrong type. *)
Lemma validate_keys_rejects (keys : list (string * pytype))
    (entry : gmap string json) (message : string) :
  validate_keys keys entry = (false, message) ->
  exists key t,
    (key, t) ∈ keys
    /\ (message = "Missing key: " +:+ key
        \/ message = "Wrong type for " +:+ key +:+ ": expected "
                       +:+ type_name t).
Proof.
  induction keys as [|[key t] keys IH]; simpl; [done|].
  destruct (entry !! key) as [v|].
  - destruct (isinstance v t).
    + intros (k & t' & Hin & Hmsg)%IH. exists k, t'.
      split; [by right | done].
    + intros [= <-]. exists key, t. split; [by left | by right].
  - intros [= <-]. exists key, t. split; [by left | by left].
Qed.

(* ================================================================== *)
(** ** Further properties: the sanitizer *)
(* ================================================================== *)

Lemma lstrip_starts_nonspace (s : string) : starts_nonspace (lstrip s) = true.
Proof.
  induction s as [|c s IH]; simpl; [done|].
  destruct (isspace c) eqn:Hc; [done|]. simpl. by rewrite Hc.
Qed.

Lemma lstrip_id (s : string) : starts_nonspace s = true -> lstrip s = s.
Proof. destruct s as [|c s]; simpl; [done|]. by destruct (isspace c). Qed.

Lemma rstrip_cons (c : ascii) (s : string) :
  rstrip (String c s)
  = match rstrip s with
    | EmptyString => if isspace c then EmptyString else chr c
    | r => String c r
    end.
Proof. reflexivity. Qed.

Lemma rstrip_idempotent (s : string) : rstrip (rstrip s) = rstrip s.
Proof.
  induction s as [|c s IH]; [done|]. rewrite rstrip_cons.
  destruct (rstrip s) as [|d r] eqn:Hr.
  - destruct (isspace c) eqn:Hc; [done|]. simpl. by rewrite Hc.
  - rewrite rstrip_cons, IH. done.
Qed.

(** Stripping on the left and on the right commute. *)
Lemma lstrip_rstrip (s : string) : lstrip (rstrip s) = rstrip (lstrip s).
Proof.
  induction s as [|c s IH]; [done|].
  rewrite rstrip_cons. simpl lstrip at 2.
  destruct (isspace c) eqn:Hc.
  - destruct (rstrip s) as [|d r] eqn:Hr.
    + by rewrite <- IH.
    + simpl. by rewrite Hc.
  - rewrite rstrip_cons.
    destruct (rstrip s) as [|d r]; simpl; by rewrite Hc.
Qed.

Lemma strip_idempotent (s : string) : strip (strip s) = strip s.
Proof.
  unfold strip.
  rewrite (lstrip_rstrip (lstrip (rstrip s))).
  rewrite (lstrip_id (lstrip _)) by apply lstrip_starts_nonspace.
  by rewrite lstrip_rstrip, rstrip_idempotent.
Qed.

(** X3.  What [clean_json_string] returns carries no whitespace at
    either end: stripping it again changes nothing. *)
Theorem clean_json_string_stripped (json_str : string) :
  strip (clean_json_string json_str) = clean_json_string json_str.
Proof. unfold clean_json_string, repair. apply strip_idempotent. Qed.

Lemma startswith_cons (c d : ascii) (s : string) :
  startswith (String c EmptyString) (String d s) = Ascii.eqb c d.
Proof.
  unfold startswith. simpl.
  destruct (ascii_dec c d) as [->|Hne].
  - rewrite Ascii.eqb_refl. by destruct s.
  - symmetry. by apply Ascii.eqb_neq.
Qed.

Lemma strip_cons_nonspace (c : ascii) (s : string) :
  isspace c = false -> exists r, strip (String c s) = String c r.
Proof.
  intros Hc. unfold strip. rewrite rstrip_cons.
  destruct (rstrip s) as [|d r]; rewrite ?Hc; simpl; rewrite Hc; by eexists.
Qed.

Lemma wrap_object_unfold (json_str : string) :
  wrap_object json_str
  = if startswith "{" json_str then "[" +:+ json_str +:+ "]" else json_str.
Proof.
  unfold wrap_object.
  destruct (startswith "{" json_str) eqn:Hbrace; [|done].
  destruct json_str as [|c s]; [done|].
  rewrite startswith_cons in Hbrace.
  apply Ascii.eqb_eq in Hbrace as <-.
  destruct (strip_cons_nonspace "{" s eq_refl) as [r ->].
  reflexivity.
Qed.

(** X4.  The second test of the wrapping condition never decides: a
    text that starts with an opening brace is always wrapped in
    brackets, whatever follows, and any other text is left as it is. *)
Theorem wrap_object_by_first_character (json_str : string) :
  (startswith "{" json_str = true ->
   wrap_object json_str = "[" +:+ json_str +:+ "]")
  /\ (startswith "{" json_str = false -> wrap_object json_str = json_str).
Proof. rewrite wrap_object_unfold. split; by intros ->. Qed.

Lemma wrap_object_by_first_character_witness :
  wrap_object (q "{'a': [1]}") = "[" +:+ q "{'a': [1]}" +:+ "]"
  /\ wrap_object (q "'Copper'") = q "'Copper'".
Proof.
  split.
  - apply (proj1 (wrap_object_by_first_character _)). reflexivity.
  - apply (proj2 (wrap_object_by_first_character _)). reflexivity.
Defined.

Lemma re_sub_cons (m : matcher) (c : ascii) (s : string) :
  re_sub m (String c s)
  = match m (String c s) with
    | Some (r, n) => r +:+ re_sub_from m (n - 1) s
    | None => String c (re_sub m s)
    end.
Proof. reflexivity. Qed.

(** Where the pattern matches nowhere, [re.sub] returns the text. *)
Lemma re_sub_no_match (m : matcher) (s : string) :
  re_search m s = false -> re_sub m s = s.
Proof.
  induction s as [|c s IH]; [done|].
  rewrite re_search_cons, re_sub_cons.
  destruct (m (String c s)); [done|]. by intros ->%IH.
Qed.

Lemma rstrip_append_nonspace (x : string) (c : ascii) :
  isspace c = false -> rstrip (x +:+ chr c) = x +:+ chr c.
Proof.
  intros Hc. induction x as [|d x IH]; [simpl; by rewrite Hc|].
  rewrite append_cons, rstrip_cons, IH.
  by destruct x.
Qed.

(** X5.  A text in which, once the commentary is cut off, neither the
    trailing-comma pattern nor the single-field-object pattern occurs
    is not altered by the repairs: [clean_json_string] returns the
    truncated text itself, wrapped in brackets if it starts with an
    opening brace. *)
Theorem clean_json_string_keeps_clean_payload (json_str : string) :
  re_search trailing_comma (truncate_commentary json_str) = false ->
  re_search name_object (truncate_commentary json_str) = false ->
  clean_json_string json_str
  = if startswith "{" (truncate_commentary json_str)
    then "[" +:+ truncate_commentary json_str +:+ "]"
    else truncate_commentary json_str.
Proof.
  intros Hcomma Hname. unfold clean_json_string, repair.
  rewrite (re_sub_no_match _ _ Hcomma), (re_sub_no_match _ _ Hname).
  rewrite wrap_object_unfold.
  destruct (startswith "{" _).
  - unfold strip.
    change ("[" +:+ truncate_commentary json_str +:+ "]")
      with (String "[" (truncate_commentary json_str +:+ chr "]")).
    rewrite rstrip_cons, rstrip_append_nonspace by done.
    by destruct (truncate_commentary json_str).
  - unfold truncate_commentary. apply strip_idempotent.
Qed.

Lemma clean_json_string_keeps_clean_payload_witness :
  clean_json_string ("  " +:+ clean_payload +:+ chr newline +:+ "Note: done")
  = clean_payload.
Proof.
  rewrite clean_json_string_keeps_clean_payload.
  - vm_compute. reflexivity.
  - vm_compute. reflexivity.
  - vm_compute. reflexivity.
Defined.

Lemma length_append (a b : string) :
  String.length (a +:+ b) = String.length a + String.length b.
Proof.
  induction a as [|c a IH]; [done|]. rewrite append_cons. simpl. by rewrite IH.
Qed.

Lemma take_cons (k : nat) (c : ascii) (s : string) :
  take (S k) (String c s) = String c (take k s).
Proof. reflexivity. Qed.

Lemma take_append (ws : string) (b : ascii) (rest : string) :
  take (S (String.length ws)) (ws +:+ String b rest) = ws +:+ chr b.
Proof.
  induction ws as [|c ws IH]; [done|].
  rewrite !append_cons.
  change (String.length (String c ws)) with (S (String.length ws)).
  by rewrite take_cons, IH.
Qed.

Lemma closing_inv (b : ascii) :
  closing b = true -> isspace b = false /\ Ascii.eqb "{" b = false.
Proof.
  unfold closing.
  intros [->%Ascii.eqb_eq | ->%Ascii.eqb_eq]%orb_true_iff; done.
Qed.

(** A match of the trailing-comma pattern starts on a comma and is
    replaced by the run that followed the comma: whitespace, then the
    closing brace or bracket. *)
Lemma trailing_comma_inv (c : ascii) (s r : string) (n : nat) :
  trailing_comma (String c s) = Some (r, n) ->
  c = ","%char
  /\ (exists k, r = take k s /\ n = S k)
  /\ exists ws b, all_space ws = true /\ closing b = true /\ r = ws +:+ chr b.
Proof.
  unfold trailing_comma.
  destruct (Ascii.eqb c ",") eqn:Hc; [|done].
  apply Ascii.eqb_eq in Hc as ->.
  destruct (lstrip s) as [|b rest] eqn:Hstrip; [done|].
  destruct (closing b) eqn:Hb; [|done].
  intros [= <- <-]. split_and!; [done | by eexists |].
  destruct (lstrip_split s) as (ws & Hws & Hs). rewrite Hstrip in Hs.
  exists ws, b. split_and!; [done..|].
  rewrite Hs, length_append. simpl String.length.
  replace (String.length ws + S (String.length rest) - String.length rest)
    with (S (String.length ws)) by lia.
  apply take_append.
Qed.

(** The replacement of the single-field-object pattern is a quoted
    string, and the pattern starts on an opening brace. *)
Lemma name_object_inv (c : ascii) (s r : string) (n : nat) :
  name_object (String c s) = Some (r, n) ->
  c = "{"%char /\ exists g, r = chr dquote +:+ g +:+ chr dquote.
Proof.
  unfold name_object, eat.
  rewrite startswith_cons.
  destruct (Ascii.eqb "{" c) eqn:Hc; [|done].
  apply Ascii.eqb_eq in Hc as <-. simpl.
  destruct (startswith _ _); [|done]. simpl.
  destruct (startswith _ _); [|done]. simpl.
  destruct (startswith _ _); [|done]. simpl.
  destruct (span_until _ _) as [g s5].
  destruct g as [|d g]; [done|].
  destruct (startswith _ _); [|done]. simpl.
  destruct (startswith _ _); [|done]. simpl.
  intros [= <- _]. split; [done | by eexists].
Qed.

Lemma re_sub_trailing_comma_head (t : string) :
  starts_nonspace t = true ->
  starts_nonspace (re_sub trailing_comma t) = true
  \/ closes_first (re_sub trailing_comma t).
Proof.
  destruct t as [|c t]; [by left|]. intros Hc. rewrite re_sub_cons.
  destruct (trailing_comma (String c t)) as [[r n]|] eqn:Hm; [|by left].
  right.
  apply trailing_comma_inv in Hm as (_ & _ & ws & b & Hws & Hb & ->).
  exists ws, b, (re_sub_from trailing_comma (n - 1) t).
  split_and!; [done..|]. by rewrite append_assoc.
Qed.

Lemma name_object_needs_brace (c : ascii) (s : string) :
  Ascii.eqb "{" c = false -> name_object (String c s) = None.
Proof.
  intros Hc. destruct (name_object (String c s)) as [[r n]|] eqn:Hm; [|done].
  apply name_object_inv in Hm as [-> _]. done.
Qed.

Lemma re_sub_name_object_closes_first (u : string) :
  closes_first u -> closes_first (re_sub name_object u).
Proof.
  intros (ws & b & rest & Hws & Hb & ->).
  exists ws, b, (re_sub name_object rest). split_and!; [done..|].
  apply closing_inv in Hb as [_ Hb].
  induction ws as [|w ws IH].
  - rewrite !append_nil, re_sub_cons. by rewrite name_object_needs_brace.
  - simpl in Hws. apply andb_true_iff in Hws as [Hw Hws].
    rewrite !append_cons, re_sub_cons.
    rewrite name_object_needs_brace.
    + f_equal. by apply IH.
    + destruct (Ascii.eqb "{" w) eqn:Heq; [|done].
      apply Ascii.eqb_eq in Heq as <-. done.
Qed.

Lemma re_sub_name_object_nonspace (u : string) :
  starts_nonspace u = true -> starts_nonspace (re_sub name_object u) = true.
Proof.
  destruct u as [|c u]; [done|]. intros Hc. rewrite re_sub_cons.
  destruct (name_object (String c u)) as [[r n]|] eqn:Hm; [|done].
  by apply name_object_inv in Hm as (_ & g & ->).
Qed.

(** What the two repairs leave starts with a character that is not
    whitespace unless it opens with a closing brace or bracket. *)
Lemma repaired_head (t : string) :
  starts_nonspace t = true ->
  let v := re_sub name_object (re_sub trailing_comma t) in
  starts_nonspace v = true \/ closes_first v.
Proof.
  intros Ht. simpl.
  destruct (re_sub_trailing_comma_head t Ht) as [Hu|Hu].
  - left. by apply re_sub_name_object_nonspace.
  - right. by apply re_sub_name_object_closes_first.
Qed.

Lemma startswith_brace_rstrip (v : string) :
  starts_nonspace v = true ->
  startswith "{" (rstrip v) = startswith "{" v.
Proof.
  destruct v as [|c v]; [done|]. intros Hc%negb_true_iff.
  rewrite rstrip_cons.
  destruct (rstrip v); rewrite ?Hc; unfold chr; by rewrite !startswith_cons.
Qed.

(** What [repair] makes of a text without leading whitespace never
    starts with an opening brace. *)
Lemma repair_never_bare_object (t : string) :
  starts_nonspace t = true -> startswith "{" (repair t) = false.
Proof.
  intros Ht. unfold repair.
  pose proof (repaired_head t Ht) as Hhead. simpl in Hhead.
  set (v := re_sub name_object (re_sub trailing_comma t)) in *.
  rewrite wrap_object_unfold.
  destruct (startswith "{" v) eqn:Hv.
  - change ("[" +:+ v +:+ "]") with (String "[" (v +:+ "]")).
    destruct (strip_cons_nonspace "[" (v +:+ "]") eq_refl) as [r ->].
    reflexivity.
  - unfold strip. rewrite lstrip_rstrip.
    destruct Hhead as [Hnonspace|(ws & b & rest & Hws & Hb & Hshape)].
    + rewrite lstrip_id by done. by rewrite startswith_brace_rstrip.
    + rewrite Hshape, lstrip_all_space by done.
      apply closing_inv in Hb as [Hspace Hbrace].
      rewrite lstrip_nonspace by done.
      rewrite startswith_brace_rstrip by (simpl; by rewrite Hspace).
      by rewrite startswith_cons.
Qed.

(** X6.  [clean_json_string] never returns a text that starts with an
    opening brace: whatever the repairs leave, a bare object is handed
    on inside brackets, and no repair uncovers a brace at the start. *)
Theorem clean_json_string_never_bare_object (json_str : string) :
  startswith "{" (clean_json_string json_str) = false.
Proof.
  unfold clean_json_string. apply repair_never_bare_object.
  unfold truncate_commentary, strip. apply lstrip_starts_nonspace.
Qed.

Lemma re_sub_from_skip (m : matcher) (k : nat) (s : string) :
  re_sub_from m k s = re_sub m (drop k s).
Proof.
  revert k. induction s as [|c s IH]; intros [|k]; try done.
  simpl. apply IH.
Qed.

Lemma without_commas_append (a b : string) :
  without_commas (a +:+ b) = without_commas a +:+ without_commas b.
Proof.
  induction a as [|c a IH]; [done|]. rewrite append_cons. simpl.
  destruct (Ascii.eqb c ","); [done|]. by rewrite append_cons, IH.
Qed.

Lemma length_drop (k : nat) (s : string) :
  String.length (drop k s) <= String.length s.
Proof.
  revert k. induction s as [|c s IH]; intros [|k]; simpl; try lia.
  specialize (IH k). lia.
Qed.

(** X7.  The trailing-comma step deletes commas and nothing else: with
    the commas left out, the text before and after the step is the
    same, character for character. *)
Theorem trailing_comma_step_deletes_only_commas (json_str : string) :
  without_commas (re_sub trailing_comma json_str) = without_commas json_str.
Proof.
  remember (String.length json_str) as len eqn:Hlen.
  assert (Hle : String.length json_str <= len) by lia. clear Hlen.
  revert json_str Hle.
  induction len as [|len IH]; intros [|c s] Hle; simpl in Hle; try done;
    [lia|].
  rewrite re_sub_cons.
  destruct (trailing_comma (String c s)) as [[r n]|] eqn:Hm.
  - apply trailing_comma_inv in Hm as (-> & (k & -> & ->) & _).
    replace (S k - 1) with k by lia.
    rewrite re_sub_from_skip, without_commas_append.
    rewrite IH by (pose proof (length_drop k s); lia).
    rewrite <- without_commas_append, take_drop. done.
  - simpl. rewrite IH by lia. done.
Qed.

(* ================================================================== *)
(** ** Further properties: the fenced block *)
(* ================================================================== *)

Lemma contains_cons (sub : string) (c : ascii) (s : string) :
  contains sub (String c s) = startswith sub (String c s) || contains sub s.
Proof. reflexivity. Qed.

Lemma split_cons (sep : string) (c : ascii) (s : string) :
  hd EmptyString (split sep (String c s))
  = if startswith sep (String c s) then EmptyString
    else String c (hd EmptyString (split sep s)).
Proof.
  unfold split. cbn [split_from].
  destruct (startswith sep (String c s)); [done|].
  apply hd_push_front.
Qed.

(** The first piece of a split is a prefix of the text. *)
Lemma split_hd_prefix (sep s : string) :
  exists t, s = hd EmptyString (split sep s) +:+ t.
Proof.
  induction s as [|c s (t & IH)]; [by exists EmptyString|].
  rewrite split_cons. destruct (startswith sep (String c s)).
  - by eexists.
  - exists t. rewrite append_cons. by f_equal.
Qed.

Lemma startswith_append_r (p a t : string) :
  startswith p a = true -> startswith p (a +:+ t) = true.
Proof.
  intros (b & ->)%startswith_split.
  rewrite append_assoc. apply startswith_append.
Qed.

Lemma contains_append_l (sub a b : string) :
  contains sub a = true -> contains sub (a +:+ b) = true.
Proof.
  induction a as [|c a IH].
  - simpl. rewrite orb_false_r. intros Hsub. destruct sub; [|done].
    by destruct b.
  - rewrite append_cons, !contains_cons.
    intros [Hhere|Hlater]%orb_true_iff; apply orb_true_iff.
    + left. by apply (startswith_append_r sub (String c a)).
    + right. by apply IH.
Qed.

Lemma contains_append_r (sub a b : string) :
  contains sub b = true -> contains sub (a +:+ b) = true.
Proof.
  intros Hb. induction a as [|c a IH]; [done|].
  rewrite append_cons, contains_cons, IH. apply orb_true_r.
Qed.

Lemma rstrip_split (s : string) :
  exists ws, s = rstrip s +:+ ws.
Proof.
  induction s as [|c s (ws & IH)]; [by exists EmptyString|].
  rewrite rstrip_cons. destruct (rstrip s) as [|d r] eqn:Hr.
  - destruct (isspace c).
    + exists (String c s). reflexivity.
    + exists ws. simpl in IH. by rewrite IH at 1.
  - exists ws. rewrite append_cons. by f_equal.
Qed.

(** Stripping cannot bring in an occurrence of [sub]. *)
Lemma contains_strip (sub s : string) :
  contains sub s = false -> contains sub (strip s) = false.
Proof.
  intros Hs. destruct (contains sub (strip s)) eqn:Hstrip; [|done].
  unfold strip in Hstrip.
  destruct (lstrip_split (rstrip s)) as (ws & _ & Hl).
  destruct (rstrip_split s) as (ws' & Hr).
  apply (contains_append_r sub ws) in Hstrip. rewrite <- Hl in Hstrip.
  apply (contains_append_l sub _ ws') in Hstrip. rewrite <- Hr in Hstrip.
  congruence.
Qed.

(** The text before the first occurrence of a separator holds no
    occurrence of it. *)
Lemma split_hd_without_sep (sep s : string) :
  sep <> EmptyString ->
  contains sep (hd EmptyString (split sep s)) = false.
Proof.
  intros Hsep. induction s as [|c s IH].
  - simpl. by destruct sep.
  - rewrite split_cons.
    destruct (startswith sep (String c s)) eqn:Hhere;
      [simpl; by destruct sep|].
    rewrite contains_cons, IH, orb_false_r.
    destruct (startswith sep (String c (hd EmptyString (split sep s))))
      eqn:Hpiece; [|done].
    destruct (split_hd_prefix sep s) as (t & Ht).
    apply (startswith_append_r _ _ t) in Hpiece.
    rewrite append_cons, <- Ht in Hpiece. congruence.
Qed.

Lemma contains_fence_open (s : string) :
  contains fence_open s = true -> contains fence s = true.
Proof.
  induction s as [|c s IH]; [done|].
  rewrite !contains_cons.
  intros [Hhere|Hlater]%orb_true_iff; apply orb_true_iff.
  - left. apply startswith_split in Hhere as (t & ->).
    change (fence_open +:+ t) with (fence +:+ ("json" +:+ t)).
    apply startswith_append.
  - right. by apply IH.
Qed.

(** X8.  When the answer holds a json fence, what is kept of it holds
    no fence marker at all and no whitespace at either end; without
    such a fence the answer is kept whole.  Either way, extracting the
    fenced block a second time changes nothing. *)
Theorem unfence_result (raw_response : string) :
  (contains fence_open raw_response = true ->
   contains fence (unfence raw_response) = false
   /\ strip (unfence raw_response) = unfence raw_response)
  /\ (contains fence_open raw_response = false ->
      unfence raw_response = raw_response)
  /\ unfence (unfence raw_response) = unfence raw_response.
Proof.
  assert (Hfenced : contains fence_open raw_response = true ->
            contains fence (unfence raw_response) = false
            /\ strip (unfence raw_response) = unfence raw_response).
  { intros Hopen. unfold unfence. rewrite Hopen. split.
    - by apply contains_strip, split_hd_without_sep.
    - apply strip_idempotent. }
  assert (Hplain : forall r, contains fence_open r = false -> unfence r = r).
  { intros r Hr. unfold unfence. by rewrite Hr. }
  split_and!; [done | apply Hplain |].
  destruct (contains fence_open raw_response) eqn:Hopen.
  - apply Hplain. destruct (Hfenced eq_refl) as [Hnone _].
    destruct (contains fence_open (unfence raw_response)) eqn:Hagain; [|done].
    apply contains_fence_open in Hagain. congruence.
  - by rewrite !(Hplain raw_response).
Qed.

Lemma unfence_result_witness :
  contains fence (unfence acme_answer) = false
  /\ unfence "[]" = "[]".
Proof.
  split.
  - apply (proj1 (unfence_result acme_answer)). reflexivity.
  - apply (proj1 (proj2 (unfence_result "[]"))). reflexivity.
Defined.

(* ================================================================== *)
(** ** Further properties: the page text and the table extractor *)
(* ================================================================== *)

Lemma tag_name_without (hidden : node -> bool) (n : node) :
  tag_name (without hidden n) = tag_name n.
Proof. by destruct n. Qed.

Lemma is_script_or_style_by_name (n m : node) :
  tag_name n = tag_name m -> is_script_or_style n = is_script_or_style m.
Proof. unfold is_script_or_style, has_name. by intros ->. Qed.

Section Decomposing.
Variable hidden : node -> bool.
Hypothesis hidden_by_name :
  forall n m, tag_name n = tag_name m -> hidden n = hidden m.

Lemma descendants_without (n : node) :
  Forall (fun d => hidden d = false) (descendants (without hidden n)).
Proof.
  induction n as [s|s|name attrs cs IH] using node_tree_ind; simpl;
    [constructor..|].
  induction IH as [|c cs Hc _ IHcs]; simpl; [constructor|].
  destruct (hidden c) eqn:Hhidden; [done|]. simpl.
  constructor; [|apply Forall_app; split; [exact Hc | exact IHcs]].
  by rewrite (hidden_by_name _ c) by apply tag_name_without.
Qed.

Lemma descendants_decompose_all (s : soup) :
  Forall (fun d => hidden d = false) (soup_descendants (decompose_all hidden s)).
Proof.
  unfold soup_descendants, decompose_all.
  induction s as [|c s IH]; simpl; [constructor|].
  destruct (hidden c) eqn:Hhidden; [done|]. simpl.
  constructor; [|apply Forall_app; split; [apply descendants_without | exact IH]].
  by rewrite (hidden_by_name _ c) by apply tag_name_without.
Qed.

(** A tree that holds none of the elements to remove is left as it
    is. *)
Lemma without_nothing_hidden (n : node) :
  Forall (fun d => hidden d = false) (descendants n) ->
  without hidden n = n.
Proof.
  induction n as [s|s|name attrs cs IH] using node_tree_ind; simpl;
    [done..|].
  intros Hnone. f_equal.
  induction IH as [|c cs Hc _ IHcs]; simpl in *; [done|].
  apply Forall_cons in Hnone as [Hc0 Hnone].
  apply Forall_app in Hnone as [Hcd Hnone].
  by rewrite Hc0, Hc, IHcs.
Qed.

Lemma decompose_all_nothing_hidden (s : soup) :
  Forall (fun d => hidden d = false) (soup_descendants s) ->
  decompose_all hidden s = s.
Proof.
  unfold soup_descendants, decompose_all.
  induction s as [|c s IH]; simpl; [done|].
  intros Hnone.
  apply Forall_cons in Hnone as [Hc0 Hnone].
  apply Forall_app in Hnone as [Hcd Hnone].
  by rewrite Hc0, without_nothing_hidden, IH.
Qed.

(** The strings of a tree after the removal are the strings that lay
    outside the removed elements. *)
Lemma strings_without (n : node) :
  strings (without hidden n) = strings_outside hidden n.
Proof.
  induction n as [s|s|name attrs cs IH] using node_tree_ind; simpl;
    [done..|].
  induction IH as [|c cs Hc _ IHcs]; simpl; [done|].
  destruct (hidden c); [done|]. simpl. by rewrite Hc, IHcs.
Qed.

Lemma strings_decompose_all (s : soup) :
  flat_map strings (decompose_all hidden s)
  = flat_map (fun c => if hidden c then [] else strings_outside hidden c) s.
Proof.
  unfold decompose_all.
  induction s as [|c s IH]; simpl; [done|].
  destruct (hidden c); [done|]. simpl. by rewrite strings_without, IH.
Qed.
End Decomposing.

(** X9.  After the loop that decomposes the [script] and [style] tags
    no such element is left anywhere in the tree, at any depth; and a
    tree that held none is not changed by it, so running the loop a
    second time changes nothing. *)
Theorem decompose_removes_every_script_and_style (s : soup) :
  let cleaned := decompose_all is_script_or_style s in
  Forall (fun d => is_script_or_style d = false) (soup_descendants cleaned)
  /\ decompose_all is_script_or_style cleaned = cleaned
  /\ (Forall (fun d => is_script_or_style d = false) (soup_descendants s) ->
      cleaned = s).
Proof.
  pose proof (descendants_decompose_all is_script_or_style
                is_script_or_style_by_name s) as Hnone.
  simpl. split_and!; [done | | ].
  - by apply decompose_all_nothing_hidden.
  - apply decompose_all_nothing_hidden.
Qed.

Lemma decompose_removes_every_script_and_style_witness :
  decompose_all is_script_or_style (HtmlLite.parse acme_page)
  = HtmlLite.parse acme_page.
Proof.
  apply (proj2 (proj2 (decompose_removes_every_script_and_style _))).
  vm_compute. repeat constructor.
Defined.

Section PageText.
Variable BeautifulSoup : string -> soup.

(** X10.  Removing the [script] and [style] elements and then reading
    the text is the same as reading the text while skipping them: the
    visible text is made of the text strings [get_text] visits (the
    [Text] nodes: not the comments, and not the strings the tree
    builder files under a class of their own, as for the text inside
    [template], [rt] and [rp]) that lie outside every [script] and
    [style] element, in document order, each one stripped, the empty
    ones dropped, the rest joined by single spaces.  What stands inside
    a script or a style sheet, at any depth, never reaches the
    model. *)
Theorem extract_visible_text_skips_scripts (html : string) :
  extract_visible_text BeautifulSoup html
  = join " "
      (List.filter nonempty
         (strip <$>
            flat_map (fun c => if is_script_or_style c then []
                               else strings_outside is_script_or_style c)
              (BeautifulSoup html))).
Proof.
  unfold extract_visible_text, get_text_of.
  fold is_script_or_style. by rewrite strings_decompose_all.
Qed.

End PageText.

(** A text is left alone by [strip] exactly when it has no whitespace
    at its start and [rstrip] leaves it alone. *)
Lemma strip_fixed_iff (s : string) :
  strip s = s <-> starts_nonspace s = true /\ rstrip s = s.
Proof.
  unfold strip. split.
  - intros Hs. split.
    + rewrite <- Hs. apply lstrip_starts_nonspace.
    + rewrite <- Hs at 1.
      by rewrite <- lstrip_rstrip, rstrip_idempotent.
  - intros [Hstart ->]. by apply lstrip_id.
Qed.

Lemma rstrip_append_fixed (a b : string) :
  rstrip b = b -> b <> EmptyString -> rstrip (a +:+ b) = a +:+ b.
Proof.
  intros Hb Hne. induction a as [|c a IH]; [done|].
  rewrite append_cons, rstrip_cons, IH.
  destruct a; [by destruct b | done].
Qed.

Lemma join_cons2 (sep p r : string) (rest : list string) :
  join sep (p :: r :: rest) = p +:+ sep +:+ join sep (r :: rest).
Proof. reflexivity. Qed.

Lemma join_nonempty (sep p : string) (rest : list string) :
  p <> EmptyString -> join sep (p :: rest) <> EmptyString.
Proof.
  intros Hp. destruct rest as [|r rest]; [done|].
  rewrite join_cons2. by destruct p.
Qed.

(** Joining stripped, non-empty pieces gives a stripped text, whatever
    the separator. *)
Lemma join_stripped (sep : string) (pieces : list string) :
  Forall (fun p => strip p = p /\ p <> EmptyString) pieces ->
  strip (join sep pieces) = join sep pieces.
Proof.
  induction 1 as [|p rest [Hp Hne] Hrest IH]; [done|].
  destruct rest as [|r rest]; [done|].
  apply Forall_cons in Hrest as [[Hr Hrne] Hrest].
  rewrite join_cons2. apply strip_fixed_iff.
  apply strip_fixed_iff in Hp as [Hstart _]. split.
  - by destruct p.
  - rewrite <- !append_assoc. apply rstrip_append_fixed.
    + by apply strip_fixed_iff in IH as [_ ?].
    + by apply join_nonempty.
Qed.

Lemma nonempty_spec (s : string) : nonempty s = true <-> s <> EmptyString.
Proof. by destruct s. Qed.

(** The text [get_text] returns with [strip=True] has no whitespace at
    either end. *)
Lemma get_text_of_stripped (sep : string) (ns : list node) :
  strip (get_text_of sep ns) = get_text_of sep ns.
Proof.
  unfold get_text_of. apply join_stripped.
  apply List.Forall_forall. intros p [Hin Hne]%filter_In.
  apply nonempty_spec in Hne. split; [|done].
  apply list_elem_of_In, list_elem_of_fmap in Hin as (y & -> & _).
  apply strip_idempotent.
Qed.

Section ExtractorFurther.
Variable BeautifulSoup : string -> soup.

(** X11.  The text handed to the model has no whitespace at either
    end. *)
Theorem extract_visible_text_stripped (html : string) :
  strip (extract_visible_text BeautifulSoup html)
  = extract_visible_text BeautifulSoup html.
Proof. unfold extract_visible_text. apply get_text_of_stripped. Qed.

(** X12.  Every material name returned is non-empty and has no
    whitespace at either end, and there is at most one name per row of
    the materials table. *)
Theorem extract_materials_accepted_names (html : string) :
  Forall (fun name => name <> EmptyString /\ strip name = name)
    (extract_materials_accepted BeautifulSoup html)
  /\ List.length (extract_materials_accepted BeautifulSoup html)
     <= List.length (select is_materials_table is_row (BeautifulSoup html)).
Proof.
  unfold extract_materials_accepted. rewrite fold_add_material. simpl.
  set (rows := select is_materials_table is_row (BeautifulSoup html)).
  split.
  - apply List.Forall_forall. intros name [Hin Hne]%filter_In.
    apply nonempty_spec in Hne. split; [done|].
    apply list_elem_of_In, list_elem_of_fmap in Hin as (cell & -> & _).
    apply get_text_of_stripped.
  - etransitivity; [apply List.filter_length_le|].
    rewrite length_fmap. clearbody rows.
    induction rows as [|row rows IH]; simpl; [done|].
    unfold omap in *. destruct (material_cell row); simpl; lia.
Qed.

End ExtractorFurther.

(* ================================================================== *)
(** ** Further properties: the orchestrator and the loop of [main] *)
(* ================================================================== *)

Section OrchestratorFurther.
Variable chain_invoke : string -> exn + string.
Variable json_loads : string -> exn + json.
Variable BeautifulSoup : string -> soup.

(** The functions of the script at this model, parser and tree
    builder. *)
Local Abbreviation classify :=
  (classify_with_ollama chain_invoke json_loads BeautifulSoup).
Local Abbreviation pages :=
  (process_pages chain_invoke json_loads BeautifulSoup).
Local Abbreviation visible := (extract_visible_text BeautifulSoup).
Local Abbreviation candidate_after := (overridden BeautifulSoup).

(** The verdict on the overridden candidate is the verdict of the loop
    over the three string keys of the candidate itself. *)
Lemma validation_verdict_after_override (entry_html : string)
    (candidate : gmap string json) :
  validate_structure (candidate_after entry_html candidate)
  = validate_keys (firstn 3 required_keys) candidate.
Proof.
  unfold validate_structure.
  change required_keys
    with (firstn 3 required_keys
            ++ [("materials_category", list_); ("materials_accepted", list_)])
    at 1.
  rewrite validate_keys_app.
  rewrite (validate_keys_ext (firstn 3 required_keys) _ candidate).
  - destruct (validate_keys (firstn 3 required_keys) candidate)
      as [[] message] eqn:Hthree; simpl; [|done].
    apply validate_keys_true_valid in Hthree as ->.
    cbn [validate_keys].
    by rewrite overridden_category, overridden_accepted.
  - intros key Hkey. unfold overridden.
    rewrite !lookup_insert_ne; [done|..];
      intros <-; vm_compute in Hkey;
      repeat (apply elem_of_cons in Hkey as [?|Hkey]; [done|]);
      by apply elem_of_nil in Hkey.
Qed.

(** X13.  After the two overrides the validator can only object to the
    three string fields: its verdict on the overridden candidate is the
    verdict of the same loop run over [business_name],
    [last_update_date] and [street_address] of the candidate the model
    proposed, so a message it gives names one of these three keys and
    never [materials_category] or [materials_accepted]. *)
Theorem validation_after_override (entry_html : string)
    (candidate : gmap string json) (message : string) :
  validate_structure (candidate_after entry_html candidate)
  = validate_keys (firstn 3 required_keys) candidate
  /\ (validate_structure (candidate_after entry_html candidate)
      = (false, message) ->
      exists key,
        key ∈ ["business_name"; "last_update_date"; "street_address"]
        /\ (message = "Missing key: " +:+ key
            \/ message = "Wrong type for " +:+ key +:+ ": expected str")).
Proof.
  split; [apply validation_verdict_after_override|].
  rewrite validation_verdict_after_override.
  intros (key & t & Hin & Hmsg)%validate_keys_rejects.
  exists key. simpl in Hin.
  apply elem_of_cons in Hin as [[= -> ->]|Hin];
    [split; [repeat constructor | exact Hmsg]|].
  apply elem_of_cons in Hin as [[= -> ->]|Hin];
    [split; [repeat constructor | exact Hmsg]|].
  apply elem_of_cons in Hin as [[= -> ->]|Hin];
    [split; [repeat constructor | exact Hmsg]|].
  by apply elem_of_nil in Hin.
Qed.

(** X14.  Once the parsed answer gives a dictionary as candidate, a
    record is returned exactly when the candidate holds strings under
    [business_name], [last_update_date] and [street_address]; what the
    model put under the two materials fields, or whether it put
    anything there, plays no part. *)
Theorem record_iff_three_strings (entry_html text : string) (parsed : json)
    (candidate : gmap string json) :
  chain_invoke (visible entry_html) = inr text ->
  json_loads (clean_json_string (unfence text)) = inr parsed ->
  first_if_list parsed = inr (JObj candidate) ->
  classify entry_html
  = Returned (FacilityRecord (candidate_after entry_html candidate))
  <-> Forall (well_typed_at candidate) (firstn 3 required_keys).
Proof.
  intros Hanswer Hloads Hfirst.
  unfold classify_with_ollama. rewrite Hanswer.
  rewrite (parse_and_validate_candidate _ _ _ _ parsed candidate) by done.
  rewrite <- validate_keys_valid.
  pose proof (validation_verdict_after_override entry_html candidate) as Hsame.
  destruct (validate_structure _) as [[] message] eqn:Hvalid; rewrite <- Hsame.
  - apply validate_keys_true_valid in Hvalid as Hmsg. subst message.
    by split.
  - by split.
Qed.
(** What leaves [classify_with_ollama] as an exception is the
    handler's failed read, and only after a failed model call. *)
Lemma classify_raised_inv (entry_html : string) (e : exn) :
  classify entry_html = Raised e ->
  e = unbound_raw_response
  /\ exists e0, chain_invoke (visible entry_html) = inl e0.
Proof.
  unfold classify_with_ollama.
  destruct (chain_invoke _) as [e0|text]; simpl.
  - intros [= <-]. eauto.
  - by destruct (parse_and_validate _ _ _ _).
Qed.

(** X15.  Every record [classify_with_ollama] returns passes
    [validate_structure]: the five required keys are present, the three
    text fields hold strings and the two materials fields hold
    lists. *)
Theorem returned_record_is_valid (entry_html : string)
    (record : gmap string json) :
  classify entry_html = Returned (FacilityRecord record) ->
  validate_structure record = (true, "Valid")
  /\ Forall (well_typed_at record) required_keys.
Proof.
  unfold classify_with_ollama.
  destruct (chain_invoke _) as [e|text]; simpl; [done|].
  destruct (parse_and_validate _ _ _ _) as [e|r] eqn:Hbody; simpl; [done|].
  intros [= ->].
  apply parse_and_validate_record
    in Hbody as (parsed & candidate & message & _ & _ & _ & Hvalid).
  pose proof (validate_keys_true_valid _ _ _ Hvalid) as ->.
  split; [done | by apply validate_keys_valid].
Qed.

(** X16.  Once the model has answered, the call returns, and what it
    returns is of one of three kinds: a record; an error
    dictionary [JSON decode error: ...] whose [raw_output] is the
    response text; or an error dictionary [Validation error: ...] whose
    [raw_output] is a candidate dictionary the validator rejected with
    that message. *)
Theorem classify_outcomes (entry_html text : string) :
  chain_invoke (visible entry_html) = inr text ->
  (exists record, classify entry_html = Returned (FacilityRecord record))
  \/ (exists e,
        classify entry_html
        = Returned (ExtractionFailure ("JSON decode error: " +:+ exn_str e)
                      (RawText (unfence text))))
  \/ (exists candidate message,
        classify entry_html
        = Returned (ExtractionFailure ("Validation error: " +:+ message)
                      (RawCandidate candidate))
        /\ validate_structure candidate = (false, message)).
Proof.
  intros Hanswer. unfold classify_with_ollama. rewrite Hanswer.
  unfold parse_and_validate.
  destruct (json_loads _) as [e|parsed]; simpl; [right; left; by exists e|].
  destruct (first_if_list parsed) as [e|first]; simpl;
    [right; left; by exists e|].
  destruct first as [| | | | | |candidate]; simpl;
    try (right; left; by eexists (Exn "TypeError" _)).
  destruct (validate_structure _) as [[] message] eqn:Hvalid; simpl.
  - left. by eexists.
  - right. right. by eexists _, message.
Qed.

(** X17.  The loop of [main] returns exactly when every page's call
    returns, and then it has appended one entry per page, in page
    order, each the result of that page: nothing is dropped, merged or
    reordered. *)
Theorem process_pages_returns (raw_facilities : list string)
    (structured_entries entries : list result) :
  pages raw_facilities structured_entries = Returned entries
  <-> exists results,
        Forall2 (fun raw_html r => classify raw_html = Returned r)
          raw_facilities results
        /\ entries = structured_entries ++ results.
Proof.
  revert structured_entries.
  induction raw_facilities as [|raw_html rest IH]; intros acc; simpl.
  - split.
    + intros [= <-]. exists []. split; [constructor | by rewrite app_nil_r].
    + intros (results & ->%Forall2_nil_inv_l & ->). by rewrite app_nil_r.
  - destruct (classify raw_html) as [r|e] eqn:Hone.
    + rewrite IH. split.
      * intros (results & Hall & ->). exists (r :: results).
        split; [by constructor | by rewrite <- app_assoc].
      * intros (results & Hall & ->).
        apply Forall2_cons_inv_l in Hall as (r' & results' & Hr & Hall & ->).
        exists results'. split; [done|].
        rewrite <- app_assoc. simpl. congruence.
    + split; [done|].
      intros (results & Hall & _).
      apply Forall2_cons_inv_l in Hall as (r' & results' & Hr & _ & _).
      congruence.
Qed.

(** X18.  One failed model call loses the whole run: if the model call
    raises for any page of the list, the loop of [main] ends in the
    [UnboundLocalError] of the handler, whatever the other pages gave;
    the entries collected so far are not returned. *)
Theorem process_pages_lost_on_model_failure (raw_facilities : list string)
    (raw_html : string) (e : exn) (structured_entries : list result) :
  raw_html ∈ raw_facilities ->
  chain_invoke (visible raw_html) = inl e ->
  pages raw_facilities structured_entries = Raised unbound_raw_response.
Proof.
  intros Hin Hfail. revert structured_entries.
  induction raw_facilities as [|other rest IH]; intros acc;
    [by apply elem_of_nil in Hin|].
  simpl. apply elem_of_cons in Hin as [<-|Hin].
  - unfold classify_with_ollama. by rewrite Hfail.
  - destruct (classify other) as [r|e'] eqn:Hother; [by apply IH|].
    by apply classify_raised_inv in Hother as [-> _].
Qed.

End OrchestratorFurther.

Lemma process_pages_lost_on_model_failure_witness :
  process_pages
    (fails_on (extract_visible_text HtmlLite.parse plain_page)
       connection_refused acme_answer)
    JsonLite.loads HtmlLite.parse [acme_page; plain_page; acme_page] []
  = Raised unbound_raw_response.
Proof.
  apply (process_pages_lost_on_model_failure _ _ _ _ plain_page
           connection_refused).
  - apply elem_of_cons. right. apply elem_of_cons. by left.
  - vm_compute. reflexivity.
Defined.

Lemma returned_record_is_valid_witness :
  validate_structure acme_record = (true, "Valid").
Proof.
  apply (returned_record_is_valid (answers acme_answer) JsonLite.loads
           HtmlLite.parse acme_page).
  vm_compute. reflexivity.
Defined.

Lemma classify_outcomes_witness :
  (exists record,
     classify_with_ollama (answers acme_answer) JsonLite.loads HtmlLite.parse
       acme_page = Returned (FacilityRecord record))
  \/ (exists e,
        classify_with_ollama (answers acme_answer) JsonLite.loads
          HtmlLite.parse acme_page
        = Returned (ExtractionFailure ("JSON decode error: " +:+ exn_str e)
                      (RawText (unfence acme_answer))))
  \/ (exists candidate message,
        classify_with_ollama (answers acme_answer) JsonLite.loads
          HtmlLite.parse acme_page
        = Returned (ExtractionFailure ("Validation error: " +:+ message)
                      (RawCandidate candidate))
        /\ validate_structure candidate = (false, message)).
Proof.
  apply (classify_outcomes (answers acme_answer) JsonLite.loads HtmlLite.parse
           acme_page acme_answer).
  reflexivity.
Defined.

Lemma validation_after_override_witness :
  exists key,
    key ∈ ["business_name"; "last_update_date"; "street_address"]
    /\ ("Wrong type for business_name: expected str"
        = "Missing key: " +:+ key
        \/ "Wrong type for business_name: expected str"
           = "Wrong type for " +:+ key +:+ ": expected str").
Proof.
  apply (proj2 (validation_after_override HtmlLite.parse acme_page
                  {["business_name" := JInt 3]} _)).
  vm_compute. reflexivity.
Defined.

Lemma record_iff_three_strings_witness :
  classify_with_ollama (answers acme_answer) JsonLite.loads HtmlLite.parse
    acme_page
  = Returned (FacilityRecord
                (overridden HtmlLite.parse acme_page
                   (<["materials_category" := JArr [JStr "X"]]>
                      (<["materials_accepted" := JArr [JStr "Y"]]>
                         acme_record)))).
Proof.
  apply (record_iff_three_strings (answers acme_answer) JsonLite.loads
           HtmlLite.parse acme_page acme_answer
           (JArr [JObj (<["materials_category" := JArr [JStr "X"]]>
                          (<["materials_accepted" := JArr [JStr "Y"]]>
                             acme_record))])).
  - reflexivity.
  - vm_compute. reflexivity.
  - reflexivity.
  - repeat constructor; eexists; (split; [reflexivity | reflexivity]).
Defined.

(* ================================================================== *)
(** ** Further properties: which answers become records *)
(* ================================================================== *)

(** The JSON reader of the examples returns an object only for a text
    whose first visible character is an opening brace. *)
Lemma JsonLite_object_starts_with_brace (s : string)
    (fields : gmap string json) :
  JsonLite.loads s = inr (JObj fields) -> startswith "{" (lstrip s) = true.
Proof.
  unfold JsonLite.loads. simpl JsonLite.value.
  destruct (lstrip s) as [|c rest] eqn:Hstrip; [done|].
  destruct (Ascii.eqb c "[") eqn:Hopen.
  { destruct (eat "]" (lstrip rest)) as [r|].
    - by destruct (lstrip r).
    - destruct (JsonLite.items _ _) as [[xs r]|]; simpl; [|done].
      by destruct (lstrip r). }
  destruct (Ascii.eqb c "{") eqn:Hbrace.
  { apply Ascii.eqb_eq in Hbrace as ->. intros _. by rewrite startswith_cons. }
  destruct (Ascii.eqb c dquote) eqn:Hquote.
  { destruct (JsonLite.quoted _) as [[g r]|]; simpl; [|done].
    by destruct (lstrip r). }
  unfold JsonLite.literal.
  destruct (eat "true" _) as [r|]; [by destruct (lstrip r)|].
  destruct (eat "false" _) as [r|]; [by destruct (lstrip r)|].
  destruct (eat "null" _) as [r|]; [by destruct (lstrip r)|].
  unfold JsonLite.number.
  destruct (Ascii.eqb c "-").
  - destruct rest as [|d rest']; [done|].
    destruct (JsonLite.is_digit d); [|done].
    destruct (JsonLite.digits _ _) as [z r]. by destruct (lstrip r).
  - destruct (JsonLite.is_digit c); [|done].
    destruct (JsonLite.digits _ _) as [z r]. by destruct (lstrip r).
Qed.

Section RecordsComeFromLists.
Variable chain_invoke : string -> exn + string.
Variable json_loads : string -> exn + json.
Variable BeautifulSoup : string -> soup.

(** The functions of the script at this model, parser and tree
    builder. *)
Local Abbreviation classify :=
  (classify_with_ollama chain_invoke json_loads BeautifulSoup).
Local Abbreviation visible := (extract_visible_text BeautifulSoup).

(** As [json.loads] does, the parser returns an object only for a text
    whose first character after whitespace is an opening brace. *)
Hypothesis object_starts_with_brace :
  forall s fields,
    json_loads s = inr (JObj fields) -> startswith "{" (lstrip s) = true.

(** X19.  With such a parser the sanitized answer never parses to a
    dictionary, so the branch for an answer that is not a list never
    yields a record: every record returned is the first element of a
    parsed list, with the two overrides applied. *)
Theorem record_comes_from_list (entry_html : string)
    (record : gmap string json) :
  classify entry_html = Returned (FacilityRecord record) ->
  exists text candidate others,
    chain_invoke (visible entry_html) = inr text
    /\ json_loads (clean_json_string (unfence text))
       = inr (JArr (JObj candidate :: others))
    /\ record = overridden BeautifulSoup entry_html candidate.
Proof.
  unfold classify_with_ollama.
  destruct (chain_invoke _) as [e|text] eqn:Hanswer; simpl; [done|].
  destruct (parse_and_validate _ _ _ _) as [e|r] eqn:Hbody; simpl; [done|].
  intros [= ->].
  apply parse_and_validate_record
    in Hbody as (parsed & candidate & message & Hloads & Hfirst & -> & _).
  exists text, candidate.
  destruct parsed as [| | | | |items|fields]; simpl in Hfirst; try done.
  - destruct items as [|first others]; [done|].
    injection Hfirst as ->. by exists others.
  - exfalso. apply object_starts_with_brace in Hloads.
    rewrite lstrip_id in Hloads.
    + pose proof (repair_never_bare_object
                    (truncate_commentary (unfence text))) as Hnot.
      unfold clean_json_string in Hloads. rewrite Hnot in Hloads; [done|].
      unfold truncate_commentary, strip. apply lstrip_starts_nonspace.
    + unfold clean_json_string, repair, strip. apply lstrip_starts_nonspace.
Qed.

End RecordsComeFromLists.

Lemma record_comes_from_list_witness :
  exists text candidate others,
    answers acme_answer (extract_visible_text HtmlLite.parse acme_page)
    = inr text
    /\ JsonLite.loads (clean_json_string (unfence text))
       = inr (JArr (JObj candidate :: others))
    /\ acme_record = overridden HtmlLite.parse acme_page candidate.
Proof.
  apply (record_comes_from_list (answers acme_answer) JsonLite.loads
           HtmlLite.parse JsonLite_object_starts_with_brace acme_page).
  vm_compute. reflexivity.
Defined.
